(** * The sandbox driver of crux-judge: [sandbox.c]

    A shallow embedding of [src/server/contest/sandbox/sandbox.c].  The two
    functions of the file, [childFunc] and [sandboxExec], talk to the kernel
    and to the other modules of the sandbox (logger, resource limits,
    terminator, syscall manager) only; they are embedded as programs of a
    state monad whose state is the chronological trace of everything the
    process did.  The value every call returns is chosen by the environment:
    the n-th answer of an oracle [env : nat -> Z]. *)

From Stdlib Require Import ZArith List String Bool Lia.
From ExtLib Require Import Structures.Monad Data.Monads.StateMonad.
Import ListNotations.
Import MonadNotation.
Local Open Scope string_scope.
Local Open Scope list_scope.
Local Open Scope Z_scope.
Local Open Scope monad_scope.

(** ** Constants of the platform (Linux, x86-64 headers) *)

Module Linux.
Definition NULL : Z := 0.
Definition O_RDONLY : Z := 0.
Definition O_WRONLY : Z := 1.
Definition O_CREAT : Z := 64.          (* 0100 *)
Definition O_TRUNC : Z := 512.         (* 01000 *)
Definition O_CLOEXEC : Z := 524288.    (* 02000000 *)
Definition STDIN_FILENO : Z := 0.
Definition STDOUT_FILENO : Z := 1.
Definition SIGTERM : Z := 15.
Definition SIGCHLD : Z := 17.
Definition CLONE_NEWPID : Z := 536870912.  (* 0x20000000 *)

(** The wait-status macros of <sys/wait.h> (glibc, bits/waitstatus.h). *)
Definition WTERMSIG (status : Z) : Z := Z.land status 127.
Definition WEXITSTATUS (status : Z) : Z := Z.shiftr (Z.land status 65280) 8.
Definition WIFEXITED (status : Z) : bool := WTERMSIG status =? 0.
(** The cast [(signed char)] of a value in 0..255. *)
Definition signed_char (x : Z) : Z := (x + 128) mod 256 - 128.
Definition WIFSIGNALED (status : Z) : bool :=
  0 <? Z.shiftr (signed_char (Z.land status 127 + 1)) 1.
(** [W_EXITCODE(ret, sig)]: the status the kernel reports for [exit(ret)]
    when [sig = 0], and for death by signal [sig] when [ret = 0]. *)
Definition W_EXITCODE (ret sig : Z) : Z := Z.lor (Z.shiftl ret 8) sig.
End Linux.
Import Linux.

(** ** Constants of the repository *)

(** [#define EXIT_CHILD_FAILURE 1] *)
Definition EXIT_CHILD_FAILURE : Z := 1.

(** Modelled from the spec: the header [sandbox.h], which defines the six
    codes [SB_*] that [sandboxExec] returns, is missing; they are taken as
    the variants of the spec's Outcome {OK, RUNTIME_ERROR, MEMORY_EXCEEDED,
    TIME_EXCEEDED, TASK_EXCEEDED, FAILURE}. *)
Inductive Outcome : Type :=
| SB_OK
| SB_RUNTIME_ERR
| SB_MEM_EXCEED
| SB_TIME_EXCEED
| SB_TASK_EXCEED
| SB_FAILURE.

(** Modelled from the spec: the header [resource_limits.h], which defines
    the five codes that [exceeded] is compared with, is missing; they stand
    for the variants of the spec's ExceededCause {NONE, FATAL, MEMORY,
    WALL_CLOCK, TASKS}.  They are integers ([int exceeded]) whose values are
    left open; being the labels of one [switch] they are pairwise
    different. *)
Class ExceedCodes : Type := {
  NO_EXCEED : Z;
  FATAL_ERROR_EXCEED : Z;
  MEM_LIM_EXCEED : Z;
  TIME_LIM_EXCEED : Z;
  TASK_LIM_EXCEED : Z;
  exceed_codes_distinct :
    NoDup [NO_EXCEED; FATAL_ERROR_EXCEED; MEM_LIM_EXCEED; TIME_LIM_EXCEED;
           TASK_LIM_EXCEED]
}.

(** ** Events *)

(** Memory that the process shares with code outside this file: the locals
    whose address is handed out ([&ctx], [&exceeded], [&tp]) and the fields
    of the terminator's control block [*tp]. *)
Inductive loc : Type :=
| Var_ctx
| Var_exceeded
| Var_tp
| Tp_terminated (tp : Z)
| Tp_once (tp : Z)
| Tp_done (tp : Z)
| Tp_skip (tp : Z).

(** [struct ChildPayload]; [ctx] points to the parent's local [ctx]. *)
Record ChildPayload : Type := {
  exect_path : string;
  jail_path : string;
  input_file : string;
  output_file : string;
  whitelist : string;
  ctx : loc;
  notify_c : Z;
  notify_p : Z;
  uid : Z;
  gid : Z
}.

(** Calls whose result the environment chooses. *)
Inductive call : Type :=
| Open (path : string) (flags : Z)
| Dup2 (oldfd newfd : Z)
| Close (fd : Z)
| Write (fd u : Z)                        (* write(fd, &u, sizeof(uint64_t)) *)
| Read (fd : Z)                           (* read(fd, &u, sizeof(uint64_t)) *)
| Chdir (path : string)
| Chroot (path : string)
| Setgid (g : Z)
| Setuid (u : Z)
| InstallSysCallBlocker (ctxp : loc) (fd : Z)
| Execl (path arg0 : string)
| Eventfd (initval flags : Z)
| Malloc (size : Z)
| Clone (stack_top flags : Z) (arg : ChildPayload)
| Kill (pid sig : Z)
| SetResourceLimits (pid res_lims cg_locs : Z)
| RemovePidDirs (cg_locs pid : Z)
| Waitpid (pid options : Z)               (* the answer is *wstatus *)
| Terminate (tp : Z)
| Load (l : loc).

(** Calls without a result. *)
Inductive action : Type :=
| Free (p : Z)
| SeccompRelease (c : Z)
| Store (l : loc) (v : Z).

(** What the logger and [printf] receive: [printErr(__FILE__, __LINE__, msg,
    flag, errno)] is kept as line, message and flag. *)
Inductive log_entry : Type :=
| PrintErr (line : Z) (msg : string) (flag : Z)
| Printf (fmt : string) (args : list Z).

Inductive event : Type :=
| Sys (c : call) (r : Z)
| Act (a : action)
| Log (l : log_entry).

(** The state of a run: what happened so far, and how many answers of the
    environment were used. *)
Record world : Type := { tr : list event; next : nat }.

Definition init : world := {| tr := []; next := 0 |}.

Section Program.

(** The n-th answer of the environment. *)
Variable env : nat -> Z.

Definition sys (c : call) : state world Z :=
  mkState (fun w =>
    (env (next w),
     {| tr := tr w ++ [Sys c (env (next w))]; next := S (next w) |})).

Definition act (a : action) : state world unit :=
  mkState (fun w => (tt, {| tr := tr w ++ [Act a]; next := next w |})).

Definition log (l : log_entry) : state world unit :=
  mkState (fun w => (tt, {| tr := tr w ++ [Log l]; next := next w |})).

Definition printErr (line : Z) (msg : string) (flag : Z) : state world unit :=
  log (PrintErr line msg flag).

Definition printf (fmt : string) (args : list Z) : state world unit :=
  log (Printf fmt args).

(** *** The child *)

(** How [childFunc] ends: it returns a status, or [execl] replaced the
    process image.  [execl] comes back only when it failed; the answer [0]
    of the environment stands for the image was replaced, any other
    answer is the value [execl] returned. *)
Inductive child_exit : Type :=
| Returned (status : Z)
| Execed.

Definition childFunc (cp : ChildPayload) : state world child_exit :=
  in_ <- sys (Open (input_file cp) O_RDONLY) ;;
  if in_ =? -1 then
    printErr 44 "open failed" 1 ;; ret (Returned EXIT_CHILD_FAILURE)
  else
  out <- sys (Open (output_file cp)
                (Z.lor (Z.lor O_WRONLY O_CREAT) O_TRUNC)) ;;
  if out =? -1 then
    printErr 49 "open failed" 1 ;; ret (Returned EXIT_CHILD_FAILURE)
  else
  r <- sys (Dup2 in_ STDIN_FILENO) ;;
  if r =? -1 then
    printErr 54 "dup2 failed" 1 ;; ret (Returned EXIT_CHILD_FAILURE)
  else
  r <- sys (Dup2 out STDOUT_FILENO) ;;
  if r =? -1 then
    printErr 58 "dup2 failed" 1 ;; ret (Returned EXIT_CHILD_FAILURE)
  else
  r <- sys (Close in_) ;;
  if r =? -1 then
    printErr 62 "close failed" 1 ;; ret (Returned EXIT_CHILD_FAILURE)
  else
  r <- sys (Close out) ;;
  if r =? -1 then
    printErr 66 "close failed" 1 ;; ret (Returned EXIT_CHILD_FAILURE)
  else
  r <- sys (Write (notify_p cp) 1) ;;
  if r =? -1 then
    printErr 75 "write failed" 1 ;; ret (Returned EXIT_CHILD_FAILURE)
  else
  r <- sys (Read (notify_c cp)) ;;
  if r =? -1 then
    printErr 81 "read failed" 1 ;; ret (Returned EXIT_CHILD_FAILURE)
  else
  r <- sys (Close (notify_c cp)) ;;
  if r =? -1 then
    printErr 85 "close failed" 1 ;; ret (Returned EXIT_CHILD_FAILURE)
  else
  r <- sys (Close (notify_p cp)) ;;
  if r =? -1 then
    printErr 89 "close failed" 1 ;; ret (Returned EXIT_CHILD_FAILURE)
  else
  whitelist_fd <- sys (Open (whitelist cp) (Z.lor O_RDONLY O_CLOEXEC)) ;;
  if whitelist_fd =? -1 then
    printErr 99 "open failed" 1 ;; ret (Returned EXIT_CHILD_FAILURE)
  else
  r <- sys (Chdir (jail_path cp)) ;;
  if r =? -1 then
    printErr 105 "chdir failed" 1 ;; ret (Returned EXIT_CHILD_FAILURE)
  else
  r <- sys (Chroot "./") ;;
  if r =? -1 then
    printErr 109 "chroot failed" 1 ;; ret (Returned EXIT_CHILD_FAILURE)
  else
  r <- sys (Setgid (gid cp)) ;;
  if r =? -1 then
    printErr 117 "setgid failed" 1 ;; ret (Returned EXIT_CHILD_FAILURE)
  else
  r <- sys (Setuid (uid cp)) ;;
  if r =? -1 then
    printErr 121 "setuid failed" 1 ;; ret (Returned EXIT_CHILD_FAILURE)
  else
  r <- sys (InstallSysCallBlocker (ctx cp) whitelist_fd) ;;
  if r =? -1 then
    ret (Returned EXIT_CHILD_FAILURE)
  else
  r <- sys (Execl (exect_path cp) (exect_path cp)) ;;
  if r =? 0 then
    ret Execed
  else
    (if r =? -1 then printErr 132 "execl failed" 1 else ret tt) ;;
    ret (Returned EXIT_CHILD_FAILURE).

(** *** The parent *)

Definition sandboxExecFailCleanup (notify_p notify_c child_stack : Z)
  : state world Z :=
  act (Free child_stack) ;;
  r <- sys (Close notify_p) ;;
  ret1 <- (if r =? -1 then printErr 143 "close failed" 1 ;; ret (-1)
           else ret 0) ;;
  r <- sys (Close notify_c) ;;
  if r =? -1 then printErr 147 "close failed" 1 ;; ret (-1)
  else ret ret1.

Context {codes : ExceedCodes}.

(** Lines 311-345: [switch (exceeded)].  The labels are pairwise
    different, so the order of the tests does not matter. *)
Definition switch_exceeded (wstatus exceeded : Z) : state world Outcome :=
  if exceeded =? NO_EXCEED then
    if WIFSIGNALED wstatus then
      printf "Runtime error\n" [] ;; ret SB_RUNTIME_ERR
    else
      printf "All OK\n" [] ;; ret SB_OK
  else if exceeded =? FATAL_ERROR_EXCEED then
    printErr 325 "Sandbox failure\n" 0 ;; ret SB_FAILURE
  else if exceeded =? MEM_LIM_EXCEED then
    printf "Memory limit exceeded\n" [] ;; ret SB_MEM_EXCEED
  else if exceeded =? TIME_LIM_EXCEED then
    printf "Time limit exceeded\n" [] ;; ret SB_TIME_EXCEED
  else if exceeded =? TASK_LIM_EXCEED then
    printf "Task limit exceeded\n" [] ;; ret SB_TASK_EXCEED
  else
    printErr 343 "Unexpected value for exceeded" 0 ;; ret SB_FAILURE.

(** Lines 293-345: the classification.  [exceeded] is read when the
    [switch] is reached. *)
Definition classify (wstatus : Z) : state world Outcome :=
  if WIFEXITED wstatus then
    printf "Child exited with exit status: %d\n" [WEXITSTATUS wstatus] ;;
    if WEXITSTATUS wstatus =? EXIT_CHILD_FAILURE then
      printErr 298 "Sandbox failure" 0 ;; ret SB_FAILURE
    else
      exceeded <- sys (Load Var_exceeded) ;;
      switch_exceeded wstatus exceeded
  else if WIFSIGNALED wstatus then
    printf "Child terminated with signal: %d\n" [WTERMSIG wstatus] ;;
    exceeded <- sys (Load Var_exceeded) ;;
    switch_exceeded wstatus exceeded
  else
    printErr 306 "Unexpected: Child neither exited nor signaled" 0 ;;
    ret SB_FAILURE.

(** Line 279: [while (tp -> done == 0);].  One unit of fuel per test of
    the flag; [false] when the fuel ran out with the flag still 0. *)
Fixpoint wait_done (fuel : nat) (tp : Z) : state world bool :=
  match fuel with
  | O => ret false
  | S fuel' =>
      d <- sys (Load (Tp_done tp)) ;;
      if d =? 0 then wait_done fuel' tp else ret true
  end.

Definition child_stack_size : Z := 1024 * 1024.

(** [sandboxExec]; [None] when the fuel of the wait for [done] ran out. *)
Definition sandboxExec (fuel : nat)
    (exect_path jail_path input_file output_file : string)
    (cg_locs res_lims : Z) (whitelist : string) (uid gid : Z)
  : state world (option Outcome) :=
  notify_p <- sys (Eventfd 0 0) ;;
  notify_c <- sys (Eventfd 0 0) ;;
  child_stack <- sys (Malloc child_stack_size) ;;
  if child_stack =? NULL then
    printErr 179 "malloc failed\n" 0 ;; ret (Some SB_FAILURE)
  else
  let cp :=
    {| exect_path := exect_path; jail_path := jail_path;
       input_file := input_file; output_file := output_file;
       whitelist := whitelist; ctx := Var_ctx;
       notify_p := notify_p; notify_c := notify_c;
       uid := uid; gid := gid |} in
  pid <- sys (Clone (child_stack + child_stack_size)
                (Z.lor CLONE_NEWPID SIGCHLD) cp) ;;
  if pid =? -1 then
    printErr 200 "clone failed" 1 ;;
    r <- sandboxExecFailCleanup notify_p notify_c child_stack ;;
    (if r =? -1 then printErr 203 "sandboxExecFailCleanup failed" 1
     else ret tt) ;;
    ret (Some SB_FAILURE)
  else
  r <- sys (Read notify_p) ;;
  if r =? -1 then
    printErr 212 "read failed" 1 ;;
    k <- sys (Kill pid SIGTERM) ;;
    (if k =? -1 then printErr 214 "kill failed" 1 else ret tt) ;;
    r <- sandboxExecFailCleanup notify_p notify_c child_stack ;;
    (if r =? -1 then printErr 218 "sandboxExecFailCleanup failed" 1
     else ret tt) ;;
    ret (Some SB_FAILURE)
  else
  act (Store Var_exceeded NO_EXCEED) ;;
  r <- sys (SetResourceLimits pid res_lims cg_locs) ;;
  if r =? -1 then
    printErr 226 "setResourceLimits failed" 0 ;;
    k <- sys (Kill pid SIGTERM) ;;
    (if k =? -1 then printErr 229 "kill failed" 1 else ret tt) ;;
    r <- sandboxExecFailCleanup notify_p notify_c child_stack ;;
    (if r =? -1 then printErr 234 "sandboxExecFailCleanup failed" 1
     else ret tt) ;;
    ret (Some SB_FAILURE)
  else
  r <- sys (Write notify_c 1) ;;
  if r =? -1 then
    printErr 241 "write failed" 1 ;;
    k <- sys (Kill pid SIGTERM) ;;
    (if k =? -1 then printErr 244 "kill failed" 1 else ret tt) ;;
    d <- sys (RemovePidDirs cg_locs pid) ;;
    (if d =? -1 then printErr 248 "kill failed" 1 else ret tt) ;;
    r <- sandboxExecFailCleanup notify_p notify_c child_stack ;;
    (if r =? -1 then printErr 253 "sandboxExecFailCleanup failed" 1
     else ret tt) ;;
    ret (Some SB_FAILURE)
  else
  r <- sys (Close notify_p) ;;
  (if r =? -1 then printErr 258 "close failed" 1 else ret tt) ;;
  r <- sys (Close notify_c) ;;
  (if r =? -1 then printErr 261 "close failed" 1 else ret tt) ;;
  wstatus <- sys (Waitpid pid 0) ;;
  tp <- sys (Load Var_tp) ;;
  act (Store (Tp_terminated tp) 1) ;;
  act (Free child_stack) ;;
  c <- sys (Load Var_ctx) ;;
  (if c =? NULL then ret tt else act (SeccompRelease c)) ;;
  once <- sys (Load (Tp_once tp)) ;;
  finished <-
    (if once =? 1 then wait_done fuel tp
     else
       act (Store (Tp_skip tp) NULL) ;;
       r <- sys (Terminate tp) ;;
       (if r =? -1 then printErr 284 "terminate failed" 0 else ret tt) ;;
       ret true) ;;
  if finished : bool then
    act (Free tp) ;;
    printf "**************** Results *********************\n" [] ;;
    o <- classify wstatus ;;
    ret (Some o)
  else
    ret None.

End Program.

(** ** Observations on a run *)

Definition run_trace {A : Type} (m : state world A) : list event :=
  tr (execState m init).

Definition run_value {A : Type} (m : state world A) : A :=
  evalState m init.

Definition is_execl (e : event) : bool :=
  match e with Sys (Execl _ _) _ => true | _ => false end.

Definition is_log (e : event) : bool :=
  match e with Log _ => true | _ => false end.

(** The trace without what went to the logger and to [printf]. *)
Definition nolog (t : list event) : list event :=
  filter (fun e => negb (is_log e)) t.

(** The steps of [childFunc] that confine the child. *)
Definition confinement (c : call) : bool :=
  match c with
  | Chdir _ | Chroot _ | Setgid _ | Setuid _ | InstallSysCallBlocker _ _ => true
  | _ => false
  end.

(** *** Resources, replayed from the trace *)

(** Descriptors of the notification channel that are open: [eventfd] opens
    the descriptor it returns, [close] releases its argument (on Linux also
    when it reports an error). *)
Definition fd_step (fds : list Z) (e : event) : list Z :=
  match e with
  | Sys (Eventfd _ _) fd => if fd =? -1 then fds else fds ++ [fd]
  | Sys (Close fd) _ => remove Z.eq_dec fd fds
  | _ => fds
  end.

Definition open_fds (t : list event) : list Z := fold_left fd_step t [].

(** Blocks of the heap that are live. *)
Definition heap_step (blocks : list Z) (e : event) : list Z :=
  match e with
  | Sys (Malloc _) p => if p =? NULL then blocks else blocks ++ [p]
  | Act (Free p) => remove Z.eq_dec p blocks
  | _ => blocks
  end.

Definition live_blocks (t : list event) : list Z := fold_left heap_step t [].

(** Modelled from the spec: the bodies of [setResourceLimits],
    [removePidDirs] and [terminate] are missing (resource_limits.c,
    terminate.c).  What the terminator does to the per-pid controller
    directories is left open (sections 4.6 and 9), so it is a parameter:
    [cleanup e pids] are the pids whose directories exist after the
    terminator was met at the event [e], when those of [pids] existed
    before. *)
Class Terminator := { cleanup : event -> list Z -> list Z }.

(** Where the parent meets the terminator: a test of [done], which tells
    whether the terminator that fired has completed, and the call of
    [terminate], which cancels it. *)
Definition terminator_acts (e : event) : bool :=
  match e with
  | Sys (Load (Tp_done _)) _ | Sys (Terminate _) _ => true
  | _ => false
  end.

(** Modelled from the spec: the bodies of [setResourceLimits],
    [removePidDirs] and [terminate] are missing (resource_limits.c,
    terminate.c).  The installer creates the per-pid controller directories
    (section 4.3, step 4, and section 4.4) and on failure is not said to
    leave any; [removePidDirs] removes them (section 4.3, step 5), and a
    failed removal is a cleanup failure, which orphans them (section 7);
    the terminator does to them what [cleanup] says.  The pids whose
    directories exist: *)
Definition cg_step {term : Terminator} (pids : list Z) (e : event)
  : list Z :=
  match e with
  | Sys (SetResourceLimits pid _ _) r => if r =? -1 then pids else pids ++ [pid]
  | Sys (RemovePidDirs _ pid) r => if r =? -1 then pids else remove Z.eq_dec pid pids
  | Sys (Load (Tp_done _)) _ | Sys (Terminate _) _ => cleanup e pids
  | _ => pids
  end.

Definition cg_dirs {term : Terminator} (t : list event) : list Z :=
  fold_left cg_step t [].

(** Signals sent, as (pid, signal). *)
Definition signals (t : list event) : list (Z * Z) :=
  flat_map (fun e => match e with
                     | Sys (Kill pid sig) _ => [(pid, sig)]
                     | _ => []
                     end) t.

(** Events that leave a resource alone, for a resource replayed by
    [step]. *)
Definition neutral {S : Type} (step : S -> event -> S) (e : event) : Prop :=
  forall s, step s e = s.

(** Whether the classification gets as far as the [switch]. *)
Definition reads_exceeded (ws : Z) : bool :=
  if WIFEXITED ws then negb (WEXITSTATUS ws =? EXIT_CHILD_FAILURE)
  else WIFSIGNALED ws.

(** ** Concrete environments *)

(** Values for the exceed codes, for the concrete runs. *)
Definition demo_codes : ExceedCodes.
Proof.
  refine {| NO_EXCEED := 0; FATAL_ERROR_EXCEED := 1; MEM_LIM_EXCEED := 2;
            TIME_LIM_EXCEED := 3; TASK_LIM_EXCEED := 4 |}.
  repeat constructor; cbn; intuition discriminate.
Defined.

(** The answers of an environment, in the order in which they are asked
    for; 0 afterwards. *)
Definition answers (l : list Z) : nat -> Z := fun n => nth n l 0.

Definition demo_cp : ChildPayload :=
  {| exect_path := "/prog"; jail_path := "/jail"; input_file := "/in";
     output_file := "/out"; whitelist := "/wl"; ctx := Var_ctx;
     notify_c := 4; notify_p := 3; uid := 1000; gid := 1000 |}.

Definition demo_run (env : nat -> Z) (fuel : nat)
  : state world (option Outcome) :=
  @sandboxExec env demo_codes fuel "/prog" "/jail" "/in" "/out" 100 200 "/wl"
    1000 1000.

(** Channel 3 and 4, stack at 8192, child 77; nothing fails; the child
    exits with the status [s]; the terminator has not fired; [exceeded]
    reads [ex]. *)
Definition env_exit (s ex : Z) : nat -> Z :=
  answers [3; 4; 8192; 77; 8; 0; 8; 0; 0; W_EXITCODE s 0; 999; 0; 0; 0; ex].

(** The same, but the child is killed by signal 9 after the terminator
    fired; [done] is set at the third test; [exceeded] reads
    [TIME_LIM_EXCEED]. *)
Definition env_timeout : nat -> Z :=
  answers [3; 4; 8192; 77; 8; 0; 8; 0; 0; W_EXITCODE 0 9; 999; 5; 1;
           0; 0; 1; 3].

(** The write of the go-token fails. *)
Definition env_no_go : nat -> Z :=
  answers [3; 4; 8192; 77; 8; 0; -1; 0; 0; 0; 0].

(** The write of the go-token fails, and then [removePidDirs] as well. *)
Definition env_no_removal : nat -> Z :=
  answers [3; 4; 8192; 77; 8; 0; -1; 0; -1; 0; 0].

(** A terminator that removes every directory once it has completed (a
    test of [done] that does not read 0) or was cancelled with success. *)
Definition removing_terminator : Terminator :=
  {| cleanup e pids :=
       match e with
       | Sys (Load (Tp_done _)) d => if d =? 0 then pids else []
       | Sys (Terminate _) r => if r =? -1 then pids else []
       | _ => pids
       end |}.

(** A terminator that leaves the directories alone. *)
Definition keeping_terminator : Terminator := {| cleanup _ pids := pids |}.

(** [clone] fails. *)
Definition env_no_child : nat -> Z := answers [3; 4; 8192; -1; 0; 0].

(** [malloc] fails. *)
Definition env_no_stack : nat -> Z := answers [3; 4; 0].

(** The first [eventfd] fails; the read from and the close of descriptor -1
    then fail. *)
Definition env_no_channel : nat -> Z :=
  answers [-1; 4; 8192; 77; -1; 0; -1; 0].

(** In the child: every call succeeds (the files are opened as descriptors
    5 and 6, the whitelist as 5 again). *)
Definition env_child_ok : nat -> Z :=
  answers [5; 6; 0; 1; 0; 0; 8; 8; 0; 0; 5; 0; 0; 0; 0; 0; 0].

(** In the child: [setgid], the 14th call, fails. *)
Definition env_child_setgid : nat -> Z :=
  answers [5; 6; 0; 1; 0; 0; 8; 8; 0; 0; 5; 0; 0; -1].

(** ** Further observations *)

(** Entries of the logger ([printErr]), as opposed to [printf]. *)
Definition is_err (e : event) : bool :=
  match e with Log (PrintErr _ _ _) => true | _ => false end.

(** The blocks given to [free], in order. *)
Definition frees (t : list event) : list Z :=
  flat_map (fun e => match e with Act (Free p) => [p] | _ => [] end) t.

(** The descriptors given to [close], in order. *)
Definition closes (t : list event) : list Z :=
  flat_map (fun e => match e with Sys (Close fd) _ => [fd] | _ => [] end) t.

(** The contexts given to [seccomp_release], in order. *)
Definition releases (t : list event) : list Z :=
  flat_map (fun e => match e with
                     | Act (SeccompRelease c) => [c]
                     | _ => []
                     end) t.

(** Accesses to the terminator: the pointer [tp], the fields of its block
    and the call of [terminate]. *)
Definition touches_terminator (e : event) : bool :=
  match e with
  | Sys (Load Var_tp) _ => true
  | Sys (Load (Tp_terminated _)) _ | Sys (Load (Tp_once _)) _
  | Sys (Load (Tp_done _)) _ | Sys (Load (Tp_skip _)) _ => true
  | Act (Store (Tp_terminated _) _) | Act (Store (Tp_once _) _)
  | Act (Store (Tp_done _) _) | Act (Store (Tp_skip _) _) => true
  | Sys (Terminate _) _ => true
  | _ => false
  end.

(** The steps of [childFunc] that the go-token guards: the confinement and
    [execl]. *)
Definition guarded (e : event) : bool :=
  match e with
  | Sys c _ => confinement c || is_execl e
  | _ => false
  end.

(** The read of the ready-token fails. *)
Definition env_no_ready : nat -> Z := answers [3; 4; 8192; 77; -1; 0; 0; 0].

(** [setResourceLimits] fails. *)
Definition env_no_limits : nat -> Z :=
  answers [3; 4; 8192; 77; 8; -1; 0; 0; 0].

(** In the child: the whitelist cannot be opened. *)
Definition env_child_no_whitelist : nat -> Z :=
  answers [5; 6; 0; 1; 0; 0; 8; 8; 0; 0; -1].

(** In the child: [installSysCallBlocker] fails. *)
Definition env_child_no_filter : nat -> Z :=
  answers [5; 6; 0; 1; 0; 0; 8; 8; 0; 0; 5; 0; 0; 0; 0; -1].

(** Case analysis on the next test of a result. *)
Ltac branch :=
  match goal with
  | |- context [if ?a =? ?b then _ else _] =>
      let E := fresh "E" in
      destruct (Z.eqb_spec a b) as [E | E]; cbn -[classify wait_done]
  end.

(** ** The paths of [sandboxExec] *)

Section Paths.

Variable env : nat -> Z.
Context {codes : ExceedCodes}.
Variables (exe jail input output : string) (cg_locs res_lims : Z)
          (wl : string) (uid_ gid_ : Z).

(** The payload the parent builds for descriptors [p] and [c]. *)
Definition payload (p c : Z) : ChildPayload :=
  {| exect_path := exe; jail_path := jail; input_file := input;
     output_file := output; whitelist := wl; ctx := Var_ctx;
     notify_c := c; notify_p := p; uid := uid_; gid := gid_ |}.

(** Lines 168-198: channel, stack, clone. *)
Definition started (p c stack pid : Z) : list event :=
  [Sys (Eventfd 0 0) p; Sys (Eventfd 0 0) c;
   Sys (Malloc child_stack_size) stack;
   Sys (Clone (stack + child_stack_size) (Z.lor CLONE_NEWPID SIGCHLD)
          (payload p c)) pid].

(** What [sandboxExecFailCleanup] does. *)
Definition cleaned (p c stack rp rc : Z) : list event :=
  [Act (Free stack); Sys (Close p) rp; Sys (Close c) rc].

(** Lines 209-262: the rendezvous with limits installed and the child
    released. *)
Definition released (p c pid rr rl rw rp rc : Z) : list event :=
  [Sys (Read p) rr; Act (Store Var_exceeded NO_EXCEED);
   Sys (SetResourceLimits pid res_lims cg_locs) rl;
   Sys (Write c 1) rw; Sys (Close p) rp; Sys (Close c) rc].

(** Lines 266-274: reap, publish [terminated], free the stack and the
    filter context. *)
Definition reaped (stack pid ws tp cx : Z) : list event :=
  [Sys (Waitpid pid 0) ws; Sys (Load Var_tp) tp;
   Act (Store (Tp_terminated tp) 1); Act (Free stack);
   Sys (Load Var_ctx) cx]
  ++ (if cx =? NULL then [] else [Act (SeccompRelease cx)]).

(** Lines 276-286: the coordination with the terminator; the flag says
    whether it came to an end.  [base] is the number of the first answer
    used by the wait; the wait runs out of fuel only when all the tests
    read 0. *)
Inductive coordination (fuel base : nat) (tp : Z)
  : Z -> list event -> bool -> Prop :=
| coord_wait (n : nat) (d : Z) :
    (n < fuel)%nat -> d <> 0 -> env (base + n) = d ->
    coordination fuel base tp 1
      (repeat (Sys (Load (Tp_done tp)) 0) n ++ [Sys (Load (Tp_done tp)) d])
      true
| coord_stuck :
    (forall i, (i < fuel)%nat -> env (base + i) = 0) ->
    coordination fuel base tp 1
      (repeat (Sys (Load (Tp_done tp)) 0) fuel) false
| coord_cancel (once rt : Z) :
    once <> 1 ->
    coordination fuel base tp once
      [Act (Store (Tp_skip tp) NULL); Sys (Terminate tp) rt] true.

(** The final world and the value of a run, path by path. *)
Inductive sandbox_run (fuel : nat) : world -> option Outcome -> Prop :=
| run_no_stack w p c :
    nolog (tr w) =
      [Sys (Eventfd 0 0) p; Sys (Eventfd 0 0) c;
       Sys (Malloc child_stack_size) NULL] ->
    sandbox_run fuel w (Some SB_FAILURE)
| run_no_child w p c stack rp rc :
    stack <> NULL ->
    nolog (tr w) = started p c stack (-1) ++ cleaned p c stack rp rc ->
    sandbox_run fuel w (Some SB_FAILURE)
| run_no_ready w p c stack pid k rp rc :
    stack <> NULL -> pid <> -1 ->
    nolog (tr w) =
      started p c stack pid
      ++ [Sys (Read p) (-1); Sys (Kill pid SIGTERM) k]
      ++ cleaned p c stack rp rc ->
    sandbox_run fuel w (Some SB_FAILURE)
| run_no_limits w p c stack pid rr k rp rc :
    stack <> NULL -> pid <> -1 -> rr <> -1 ->
    nolog (tr w) =
      started p c stack pid
      ++ [Sys (Read p) rr; Act (Store Var_exceeded NO_EXCEED);
          Sys (SetResourceLimits pid res_lims cg_locs) (-1);
          Sys (Kill pid SIGTERM) k]
      ++ cleaned p c stack rp rc ->
    sandbox_run fuel w (Some SB_FAILURE)
| run_no_go w p c stack pid rr rl k rd rp rc :
    stack <> NULL -> pid <> -1 -> rr <> -1 -> rl <> -1 ->
    nolog (tr w) =
      started p c stack pid
      ++ [Sys (Read p) rr; Act (Store Var_exceeded NO_EXCEED);
          Sys (SetResourceLimits pid res_lims cg_locs) rl;
          Sys (Write c 1) (-1);
          Sys (Kill pid SIGTERM) k; Sys (RemovePidDirs cg_locs pid) rd]
      ++ cleaned p c stack rp rc ->
    sandbox_run fuel w (Some SB_FAILURE)
| run_reaped w w1 p c stack pid rr rl rw rp rc ws tp cx once coord o :
    stack <> NULL -> pid <> -1 -> rr <> -1 -> rl <> -1 -> rw <> -1 ->
    coordination fuel 13 tp once coord true ->
    nolog (tr w1) =
      started p c stack pid ++ released p c pid rr rl rw rp rc
      ++ reaped stack pid ws tp cx
      ++ [Sys (Load (Tp_once tp)) once] ++ coord ++ [Act (Free tp)] ->
    runState (classify env ws) w1 = (o, w) ->
    sandbox_run fuel w (Some o)
| run_waiting w p c stack pid rr rl rw rp rc ws tp cx coord :
    stack <> NULL -> pid <> -1 -> rr <> -1 -> rl <> -1 -> rw <> -1 ->
    coordination fuel 13 tp 1 coord false ->
    nolog (tr w) =
      started p c stack pid ++ released p c pid rr rl rw rp rc
      ++ reaped stack pid ws tp cx
      ++ [Sys (Load (Tp_once tp)) 1] ++ coord ->
    sandbox_run fuel w None.

Lemma nolog_app (a b : list event) : nolog (a ++ b) = nolog a ++ nolog b.
Proof. apply filter_app. Qed.

Lemma nolog_polls (tp : Z) (n : nat) :
  nolog (repeat (Sys (Load (Tp_done tp)) 0) n)
  = repeat (Sys (Load (Tp_done tp)) 0) n.
Proof. induction n as [| n IH]; cbn; [| unfold nolog in IH; rewrite IH]; reflexivity. Qed.

(** The wait for [done]: [n] tests that read 0, then either a test that
    reads something else, or no fuel. *)
Lemma wait_done_run (fuel : nat) (tp : Z) (w : world) :
  exists coord b,
    coordination fuel (next w) tp 1 coord b
    /\ evalState (wait_done env fuel tp) w = b
    /\ tr (execState (wait_done env fuel tp) w) = tr w ++ coord.
Proof.
  revert w. induction fuel as [| fuel IH]; intros w.
  - exists [], false. cbn. rewrite app_nil_r. repeat split.
    apply (coord_stuck 0). intros i Hi. lia.
  - unfold evalState, execState. cbn.
    destruct (Z.eqb_spec (env (next w)) 0) as [E | E].
    + destruct (IH {| tr := tr w ++ [Sys (Load (Tp_done tp)) (env (next w))];
                      next := S (next w) |}) as (coord & b & Hc & Hv & Ht).
      exists (Sys (Load (Tp_done tp)) 0 :: coord), b.
      unfold evalState, execState in Hv, Ht.
      destruct (runState (wait_done env fuel tp) _) as [b' w'].
      cbn in *. subst b'. rewrite Ht, E, <- app_assoc. repeat split.
      inversion Hc; subst.
      * apply (coord_wait (S fuel) (next w) tp (S n) _); [lia | assumption |].
        f_equal. lia.
      * apply (coord_stuck (S fuel)). intros [| i] Hi.
        -- rewrite Nat.add_0_r. exact E.
        -- replace (next w + S i)%nat with (S (next w) + i)%nat by lia.
           apply H. lia.
      * congruence.
    + exists [Sys (Load (Tp_done tp)) (env (next w))], true. cbn.
      repeat split.
      apply (coord_wait (S fuel) (next w) tp 0 _); [lia | assumption |].
      f_equal. lia.
Qed.

Lemma coordination_nolog (fuel base : nat) (tp once : Z)
    (coord : list event) (b : bool) :
  coordination fuel base tp once coord b -> nolog coord = coord.
Proof.
  intros H. destruct H.
  - rewrite nolog_app, nolog_polls. reflexivity.
  - apply nolog_polls.
  - reflexivity.
Qed.

Local Abbreviation the_run fuel :=
  (sandboxExec env fuel exe jail input output cg_locs res_lims wl uid_ gid_).

Theorem sandboxExec_paths (fuel : nat) :
  sandbox_run fuel (execState (the_run fuel) init)
                   (evalState (the_run fuel) init).
Proof.
  unfold sandboxExec, evalState, execState.
  cbn -[classify wait_done].
  destruct (Z.eqb_spec (env 2%nat) NULL) as [E2 | E2]; cbn -[classify wait_done].
  { eapply run_no_stack. cbn. rewrite E2. reflexivity. }
  destruct (Z.eqb_spec (env 3%nat) (-1)) as [E3 | E3]; cbn -[classify wait_done].
  { repeat branch; (eapply run_no_child; [exact E2 | cbn; rewrite ?E3; reflexivity]). }
  destruct (Z.eqb_spec (env 4%nat) (-1)) as [E4 | E4]; cbn -[classify wait_done].
  { repeat branch; (eapply run_no_ready; [exact E2 | exact E3 | cbn; rewrite ?E4; reflexivity]). }
  destruct (Z.eqb_spec (env 5%nat) (-1)) as [E5 | E5]; cbn -[classify wait_done].
  { repeat branch; (eapply run_no_limits; [exact E2 | exact E3 | exact E4 | cbn; rewrite ?E5; reflexivity]). }
  destruct (Z.eqb_spec (env 6%nat) (-1)) as [E6 | E6]; cbn -[classify wait_done].
  { repeat branch; (eapply run_no_go; [exact E2 | exact E3 | exact E4 | exact E5 | cbn; rewrite ?E6; reflexivity]). }
  repeat branch.
  all: try match goal with
    | |- context [runState (wait_done env ?f ?tp) ?W] =>
        destruct (wait_done_run f tp W) as (coord & b & Hc & Hv & Ht);
        unfold evalState, execState in Hv, Ht;
        destruct (runState (wait_done env f tp) W) as [b' w'];
        cbn [fst snd tr next] in Hc, Hv, Ht; subst b'; destruct b;
        cbn -[classify]
    end.
  all: try match goal with
    | |- context [runState (classify env ?ws) ?W] =>
        let Hcl := fresh "Hcl" in
        destruct (runState (classify env ws) W) as [o w2] eqn:Hcl; cbn
    end.
  all: try match goal with
    | Hc : coordination _ _ _ 1 ?coord true,
      Hcl : runState (classify env _) ?W1 = (?o, ?w2)
      |- sandbox_run _ ?w2 (Some ?o) =>
        eapply (run_reaped fuel w2 W1 (env 0%nat) (env 1%nat) (env 2%nat)
                  (env 3%nat) (env 4%nat) (env 5%nat) (env 6%nat)
                  (env 7%nat) (env 8%nat) (env 9%nat) (env 10%nat)
                  (env 11%nat) (env 12%nat) coord o);
        [assumption .. | | | exact Hcl];
        [ match goal with E : env 12%nat = 1 |- _ => rewrite E end; exact Hc
        | cbn [tr]; rewrite !nolog_app, Ht, nolog_app,
            (coordination_nolog _ _ _ _ _ _ Hc) ]
    | Hcl : runState (classify env _) ?W1 = (?o, ?w2)
      |- sandbox_run _ ?w2 (Some ?o) =>
        eapply (run_reaped fuel w2 W1 (env 0%nat) (env 1%nat) (env 2%nat)
                  (env 3%nat) (env 4%nat) (env 5%nat) (env 6%nat)
                  (env 7%nat) (env 8%nat) (env 9%nat) (env 10%nat)
                  (env 11%nat) (env 12%nat)
                  [Act (Store (Tp_skip (env 10%nat)) NULL);
                   Sys (Terminate (env 10%nat)) (env 13%nat)] o);
        [assumption .. | | | exact Hcl];
        [ apply coord_cancel; assumption | cbn [tr] ]
    | Hc : coordination _ _ _ 1 ?coord false |- sandbox_run _ ?w' None =>
        eapply (run_waiting fuel w' (env 0%nat) (env 1%nat) (env 2%nat)
                  (env 3%nat) (env 4%nat) (env 5%nat) (env 6%nat)
                  (env 7%nat) (env 8%nat) (env 9%nat) (env 10%nat)
                  (env 11%nat) coord);
        [assumption .. | exact Hc | ];
        rewrite Ht, nolog_app, (coordination_nolog _ _ _ _ _ _ Hc)
    end.
  all: unfold started, released, reaped.
  all: repeat match goal with
         | E : env 11%nat = NULL |- _ =>
             rewrite E; change (NULL =? NULL) with true; cbv iota
         | E : env 11%nat <> NULL |- _ =>
             destruct (Z.eqb_spec (env 11%nat) NULL) as [E' | _];
             [contradiction | clear E]
         | E : env 12%nat = 1 |- _ => rewrite E; clear E
         end.
  all: cbn; rewrite <- ?app_assoc; reflexivity.
Qed.

(** *** The classification *)

Lemma exceed_codes_neq :
  NO_EXCEED <> FATAL_ERROR_EXCEED /\ NO_EXCEED <> MEM_LIM_EXCEED
  /\ NO_EXCEED <> TIME_LIM_EXCEED /\ NO_EXCEED <> TASK_LIM_EXCEED
  /\ FATAL_ERROR_EXCEED <> MEM_LIM_EXCEED
  /\ FATAL_ERROR_EXCEED <> TIME_LIM_EXCEED
  /\ FATAL_ERROR_EXCEED <> TASK_LIM_EXCEED
  /\ MEM_LIM_EXCEED <> TIME_LIM_EXCEED /\ MEM_LIM_EXCEED <> TASK_LIM_EXCEED
  /\ TIME_LIM_EXCEED <> TASK_LIM_EXCEED.
Proof.
  pose proof exceed_codes_distinct as H.
  repeat match goal with
         | H : NoDup (_ :: _) |- _ => inversion H; clear H; subst
         end.
  cbn [In] in *. intuition congruence.
Qed.

Lemma exited_not_signaled (ws : Z) :
  WIFEXITED ws = true -> WIFSIGNALED ws = false.
Proof.
  unfold WIFEXITED, WIFSIGNALED, WTERMSIG. intros H.
  apply Z.eqb_eq in H. rewrite H. reflexivity.
Qed.

Lemma switch_exceeded_trace (ws ex : Z) (w : world) :
  nolog (tr (snd (runState (switch_exceeded ws ex) w))) = nolog (tr w).
Proof.
  unfold switch_exceeded.
  repeat (branch; try destruct (WIFSIGNALED ws));
    cbn; rewrite nolog_app; cbn; apply app_nil_r.
Qed.

Lemma classify_trace (ws : Z) (w : world) :
  nolog (tr (execState (classify env ws) w))
  = nolog (tr w)
    ++ (if reads_exceeded ws then [Sys (Load Var_exceeded) (env (next w))]
        else []).
Proof.
  unfold classify, reads_exceeded, execState.
  destruct (WIFEXITED ws); [branch | destruct (WIFSIGNALED ws)];
    cbn -[switch_exceeded].
  - rewrite !nolog_app. cbn. rewrite !app_nil_r. reflexivity.
  - rewrite switch_exceeded_trace. cbn [tr].
    rewrite !nolog_app. cbn. rewrite app_nil_r. reflexivity.
  - rewrite switch_exceeded_trace. cbn [tr].
    rewrite !nolog_app. cbn. rewrite app_nil_r. reflexivity.
  - rewrite !nolog_app. cbn. rewrite !app_nil_r. reflexivity.
Qed.

Lemma switch_exceeded_value (ws ex : Z) (w : world) :
  let o := evalState (switch_exceeded ws ex) w in
  (ex = NO_EXCEED -> WIFSIGNALED ws = true -> o = SB_RUNTIME_ERR)
  /\ (ex = NO_EXCEED -> WIFSIGNALED ws = false -> o = SB_OK)
  /\ (ex = FATAL_ERROR_EXCEED -> o = SB_FAILURE)
  /\ (ex = MEM_LIM_EXCEED -> o = SB_MEM_EXCEED)
  /\ (ex = TIME_LIM_EXCEED -> o = SB_TIME_EXCEED)
  /\ (ex = TASK_LIM_EXCEED -> o = SB_TASK_EXCEED)
  /\ (~ In ex [NO_EXCEED; FATAL_ERROR_EXCEED; MEM_LIM_EXCEED;
                TIME_LIM_EXCEED; TASK_LIM_EXCEED] -> o = SB_FAILURE).
Proof.
  pose proof exceed_codes_neq as N.
  unfold switch_exceeded, evalState. cbn [In].
  repeat (branch; try destruct (WIFSIGNALED ws)); cbn;
    repeat split; intros; subst; try reflexivity; try congruence;
    try tauto; intuition congruence.
Qed.

Lemma classify_value (ws : Z) (w : world) :
  evalState (classify env ws) w
  = if reads_exceeded ws
    then evalState (switch_exceeded ws (env (next w))) w
    else SB_FAILURE.
Proof.
  assert (S : forall ex w1 w2,
             evalState (switch_exceeded ws ex) w1
             = evalState (switch_exceeded ws ex) w2).
  { intros ex w1 w2. unfold switch_exceeded, evalState.
    repeat (branch; try destruct (WIFSIGNALED ws)); reflexivity. }
  unfold classify, reads_exceeded, evalState.
  destruct (WIFEXITED ws); [branch | destruct (WIFSIGNALED ws) eqn:Hs];
    cbn -[switch_exceeded]; try reflexivity; apply S.
Qed.

(** *** Looking events up in a path *)

Lemma In_nolog (e : event) (t : list event) :
  is_log e = false -> In e t -> In e (nolog t).
Proof.
  intros He Hin. apply filter_In. split; [exact Hin | now rewrite He].
Qed.

Lemma nolog_In (e : event) (t : list event) : In e (nolog t) -> In e t.
Proof. intros H. apply filter_In in H. tauto. Qed.

Lemma coordination_events (fuel base : nat) (tp once : Z)
    (coord : list event) (b : bool) (e : event) :
  coordination fuel base tp once coord b -> In e coord ->
  (exists d, e = Sys (Load (Tp_done tp)) d)
  \/ e = Act (Store (Tp_skip tp) NULL)
  \/ (exists rt, e = Sys (Terminate tp) rt).
Proof.
  intros H Hin. destruct H.
  - apply in_app_or in Hin. destruct Hin as [Hin | [Hin | []]].
    + apply repeat_spec in Hin. left. eauto.
    + left. eauto.
  - apply repeat_spec in Hin. left. eauto.
  - destruct Hin as [Hin | [Hin | []]]; eauto.
Qed.

(** The run of [classify] that ends a reaped path, in one statement. *)
Lemma classify_end (ws : Z) (w1 w : world) (o : Outcome) :
  runState (classify env ws) w1 = (o, w) ->
  nolog (tr w)
  = nolog (tr w1)
    ++ (if reads_exceeded ws then [Sys (Load Var_exceeded) (env (next w1))]
        else [])
  /\ o = if reads_exceeded ws
         then evalState (switch_exceeded ws (env (next w1))) w1
         else SB_FAILURE.
Proof.
  intros H. pose proof (classify_trace ws w1) as T.
  pose proof (classify_value ws w1) as V.
  unfold execState, evalState in T, V. rewrite H in T, V. cbn in T, V.
  split; [exact T | exact V].
Qed.

End Paths.

(** Splits a membership in an explicit path into its cases. *)
Ltac in_path H :=
  unfold started, released, reaped, cleaned in H;
  repeat match type of H with
         | context [if ?a =? ?b then _ else _] => destruct (a =? b)
         end;
  repeat (rewrite in_app_iff in H); cbn [In] in H;
  repeat match type of H with
         | _ \/ _ => destruct H as [H | H]
         end;
  try discriminate H; try contradiction;
  try (match type of H with
       | In _ _ =>
           eapply coordination_events in H; [| eassumption];
           destruct H as [[? H] | [H | [? H]]]; discriminate H
       end).


(** ** Replaying resources along a path *)

Section Replay.

Context {S : Type} (step : S -> event -> S).

Lemma fold_left_neutral (l : list event) (s : S) :
  Forall (neutral step) l -> fold_left step l s = s.
Proof.
  intros H. revert s. induction H as [| e l He _ IH]; intros s; cbn.
  - reflexivity.
  - rewrite He. apply IH.
Qed.

Lemma fold_left_nolog (t : list event) (s : S) :
  (forall l, neutral step (Log l)) ->
  fold_left step t s = fold_left step (nolog t) s.
Proof.
  intros H. revert s. induction t as [| e t IH]; intros s; cbn.
  - reflexivity.
  - destruct e; cbn; try apply IH. rewrite H. apply IH.
Qed.

Lemma coordination_neutral (env : nat -> Z) (fuel base : nat) (tp once : Z)
    (coord : list event) (b : bool) (s : S) :
  (forall l r, neutral step (Sys (Load l) r)) ->
  (forall l v, neutral step (Act (Store l v))) ->
  (forall t r, neutral step (Sys (Terminate t) r)) ->
  coordination env fuel base tp once coord b ->
  fold_left step coord s = s.
Proof.
  intros HL HS HT Hc. apply fold_left_neutral. apply Forall_forall.
  intros e He.
  destruct (coordination_events env _ _ _ _ _ _ e Hc He)
    as [[d ->] | [-> | [rt ->]]]; auto.
Qed.

End Replay.

Lemma open_fds_nolog (t : list event) : open_fds t = open_fds (nolog t).
Proof. apply fold_left_nolog. intros l s. reflexivity. Qed.

Lemma live_blocks_nolog (t : list event) :
  live_blocks t = live_blocks (nolog t).
Proof. apply fold_left_nolog. intros l s. reflexivity. Qed.

Lemma cg_dirs_nolog {term : Terminator} (t : list event) :
  cg_dirs t = cg_dirs (nolog t).
Proof. apply fold_left_nolog. intros l s. reflexivity. Qed.

Lemma terminator_acts_nolog (t : list event) :
  filter terminator_acts t = filter terminator_acts (nolog t).
Proof.
  unfold nolog. induction t as [| e t IH]; [reflexivity |].
  destruct e as [c r | a | l]; cbn [filter is_log negb terminator_acts];
    [| exact IH | exact IH].
  match goal with |- (if ?b then _ else _) = _ => destruct b end;
    [f_equal |]; exact IH.
Qed.

Lemma signals_nolog (t : list event) : signals t = signals (nolog t).
Proof.
  unfold signals. induction t as [| e t IH]; cbn; [reflexivity |].
  destruct e; cbn; rewrite IH; reflexivity.
Qed.

(** Evaluates a resource on an explicit path with symbolic answers. *)
Ltac replay :=
  unfold open_fds, live_blocks, cg_dirs, signals, started, released, reaped,
    cleaned, fd_step, heap_step, cg_step;
  cbn [fold_left flat_map app];
  repeat match goal with
         | H : ?a <> ?b |- context [?a =? ?b] =>
             destruct (Z.eqb_spec a b); [contradiction |]
         | |- context [?a =? ?b] => destruct (Z.eqb_spec a b)
         | |- context [Z.eq_dec ?a ?b] => destruct (Z.eq_dec a b)
         | _ => progress cbn [fold_left flat_map app remove]
         end;
  try reflexivity; try congruence.

Section ReplayCoordination.

Context (env : nat -> Z) (fuel base : nat) (tp once : Z)
        (coord : list event) (b : bool)
        (Hc : coordination env fuel base tp once coord b).

Lemma fd_coord (s : list Z) : fold_left fd_step coord s = s.
Proof.
  apply (coordination_neutral fd_step env fuel base tp once coord b);
    try exact Hc; intros; intro; reflexivity.
Qed.

Lemma heap_coord (s : list Z) : fold_left heap_step coord s = s.
Proof.
  apply (coordination_neutral heap_step env fuel base tp once coord b);
    try exact Hc; intros; intro; reflexivity.
Qed.

(** Of the coordination, only the meetings with the terminator count for
    the directories. *)
Lemma cg_coord {term : Terminator} (s : list Z) :
  fold_left cg_step coord s
  = fold_left cg_step (filter terminator_acts coord) s.
Proof.
  assert (N : forall e, In e coord ->
                terminator_acts e = true \/ neutral cg_step e).
  { intros e He.
    destruct (coordination_events env _ _ _ _ _ _ e Hc He)
      as [[d ->] | [-> | [rt ->]]];
      [left; reflexivity | right; intro; reflexivity | left; reflexivity]. }
  clear Hc. revert s. induction coord as [| e l IH]; intros s; cbn;
    [reflexivity |].
  destruct (N e (or_introl eq_refl)) as [A | A].
  - rewrite A. cbn. apply IH. intros e' He'. apply N. now right.
  - rewrite A. destruct (terminator_acts e) eqn:E.
    + cbn. rewrite A. apply IH. intros e' He'. apply N. now right.
    + apply IH. intros e' He'. apply N. now right.
Qed.

End ReplayCoordination.

(** ** Facts on the child *)

(** Every status that [childFunc] returns is [EXIT_CHILD_FAILURE]. *)
Lemma childFunc_returns_failure (env : nat -> Z) (cp : ChildPayload) (s : Z) :
  run_value (childFunc env cp) = Returned s -> s = EXIT_CHILD_FAILURE.
Proof.
  unfold run_value, evalState, childFunc. cbn.
  repeat branch; cbn; intros H; congruence.
Qed.

(** The wait status of a normal exit with status [s]. *)
Lemma W_EXITCODE_exited (s : Z) :
  0 <= s <= 255 ->
  WIFEXITED (W_EXITCODE s 0) = true /\ WEXITSTATUS (W_EXITCODE s 0) = s.
Proof.
  intros H.
  assert (A : forallb (fun n => let s := Z.of_nat n in
                         WIFEXITED (W_EXITCODE s 0)
                         && (WEXITSTATUS (W_EXITCODE s 0) =? s))
                (seq 0 256) = true) by (vm_compute; reflexivity).
  rewrite forallb_forall in A. specialize (A (Z.to_nat s)).
  rewrite Z2Nat.id in A by lia. cbv zeta in A.
  assert (I : In (Z.to_nat s) (seq 0 256)) by (apply in_seq; lia).
  apply A in I. apply andb_prop in I. destruct I as [I J].
  apply Z.eqb_eq in J. split; assumption.
Qed.

(** ** The claims *)

Section Claims.

Variable env : nat -> Z.
Context {codes : ExceedCodes} {term : Terminator}.
Variables (exe jail input output : string) (cg_locs res_lims : Z)
          (wl : string) (uid_ gid_ : Z).

Local Abbreviation run fuel :=
  (sandboxExec env fuel exe jail input output cg_locs res_lims wl uid_ gid_).

Lemma paths (fuel : nat) :
  sandbox_run env exe jail input output cg_locs res_lims wl uid_ gid_ fuel
    (execState (run fuel) init) (evalState (run fuel) init).
Proof. apply sandboxExec_paths. Qed.

(** What a run that reaped the child with status [ws] and returns [o] did
    to classify: either it did not get to the [switch] and [o] is
    [SB_FAILURE], or it read [exceeded] (once) and [o] is the value of the
    [switch]. *)
Lemma reaped_verdict (fuel : nat) (pid opts ws : Z) (o : Outcome) :
  In (Sys (Waitpid pid opts) ws) (run_trace (run fuel)) ->
  run_value (run fuel) = Some o ->
  exists ex w1,
    o = (if reads_exceeded ws then evalState (switch_exceeded ws ex) w1
         else SB_FAILURE)
    /\ (reads_exceeded ws = true ->
        In (Sys (Load Var_exceeded) ex) (run_trace (run fuel)))
    /\ (forall ex',
          In (Sys (Load Var_exceeded) ex') (run_trace (run fuel)) ->
          reads_exceeded ws = true /\ ex' = ex).
Proof.
  intros Hin Hval. pose proof (paths fuel) as P.
  unfold run_trace, run_value in *. rewrite Hval in P.
  apply In_nolog in Hin; [| reflexivity].
  inversion P as [ | | | |
                 | w w1 p c stack pid' rr rl rw rp rc ws' tp cx once coord o'
                     Hs Hp Hr Hl Hw Hc Ht Hcl | ]; subst;
    try (match goal with H : nolog _ = _ |- _ => rewrite H in Hin end;
         in_path Hin; fail).
  destruct (classify_end _ _ _ _ _ Hcl) as [T V].
  assert (Hws : ws' = ws).
  { rewrite T, Ht in Hin.
    destruct (reads_exceeded ws'); in_path Hin; congruence. }
  subst ws'. exists (env (next w1)), w1. split; [exact V |]. split.
  - intros Hrd. rewrite Hrd in T. apply nolog_In. rewrite T.
    apply in_or_app. right. now left.
  - intros ex Hex. apply In_nolog in Hex; [| reflexivity].
    rewrite T, Ht in Hex.
    destruct (reads_exceeded ws); in_path Hex; split; congruence.
Qed.


(** C7. If the write of the go-token fails, which happens only after the
    limits were installed ([rl <> -1]), the parent sends SIGTERM to the
    child, calls [removePidDirs] for the child's pid, frees the stack,
    closes both descriptors of the channel - in this order - and
    returns [SB_FAILURE]. *)
Theorem sandboxExec_go_token_failure (fuel : nat) (fd u : Z) :
  In (Sys (Write fd u) (-1)) (run_trace (run fuel)) ->
  exists p c stack pid rr rl k rd rp rc,
    fd = c /\ u = 1 /\ pid <> -1 /\ rl <> -1
    /\ nolog (run_trace (run fuel)) =
         [Sys (Eventfd 0 0) p; Sys (Eventfd 0 0) c;
          Sys (Malloc child_stack_size) stack;
          Sys (Clone (stack + child_stack_size)
                 (Z.lor CLONE_NEWPID SIGCHLD)
                 (payload exe jail input output wl uid_ gid_ p c)) pid;
          Sys (Read p) rr; Act (Store Var_exceeded NO_EXCEED);
          Sys (SetResourceLimits pid res_lims cg_locs) rl;
          Sys (Write c 1) (-1);
          Sys (Kill pid SIGTERM) k;
          Sys (RemovePidDirs cg_locs pid) rd;
          Act (Free stack); Sys (Close p) rp; Sys (Close c) rc]
    /\ run_value (run fuel) = Some SB_FAILURE
    /\ signals (run_trace (run fuel)) = [(pid, SIGTERM)]
    /\ live_blocks (run_trace (run fuel)) = []
    /\ open_fds (run_trace (run fuel)) = []
    /\ (rd <> -1 -> cg_dirs (run_trace (run fuel)) = []).
Proof.
  intros Hin. pose proof (paths fuel) as P.
  rewrite signals_nolog, live_blocks_nolog, open_fds_nolog, cg_dirs_nolog.
  unfold run_trace, run_value in *.
  apply In_nolog in Hin; [| reflexivity].
  inversion P as [ | | | | w p c stack pid rr rl k rd rp rc Hs Hp Hr Hl Ht
                   | w w1 p c stack pid rr rl rw rp rc ws tp cx once coord o
                       Hs Hp Hr Hl Hw Hc Ht Hcl
                   | w p c stack pid rr rl rw rp rc ws tp cx coord
                       Hs Hp Hr Hl Hw Hc Ht ]; subst;
    try (match goal with H : nolog _ = _ |- _ => rewrite H in Hin end;
         in_path Hin; fail).
  - rewrite Ht in *. in_path Hin. injection Hin as <- <-.
    exists p, c, stack, pid, rr, rl, k, rd, rp, rc.
    repeat split; try assumption; try reflexivity; try (intros; replay).
  - destruct (classify_end _ _ _ _ _ Hcl) as [T V].
    rewrite T, Ht in Hin.
    destruct (reads_exceeded ws); in_path Hin; congruence.
  - rewrite Ht in Hin. in_path Hin; congruence.
Qed.

(** C9. The child is created by [clone] with the flags
    [CLONE_NEWPID | SIGCHLD]; when [clone] fails the parent frees the
    child stack, closes both descriptors of the channel and returns
    [SB_FAILURE]. *)
Theorem sandboxExec_clone (fuel : nat) (st fl pid : Z) (cp : ChildPayload) :
  In (Sys (Clone st fl cp) pid) (run_trace (run fuel)) ->
  fl = Z.lor CLONE_NEWPID SIGCHLD
  /\ (pid = -1 ->
       exists p c stack rp rc,
         nolog (run_trace (run fuel)) =
           [Sys (Eventfd 0 0) p; Sys (Eventfd 0 0) c;
            Sys (Malloc child_stack_size) stack;
            Sys (Clone (stack + child_stack_size)
                   (Z.lor CLONE_NEWPID SIGCHLD)
                   (payload exe jail input output wl uid_ gid_ p c)) (-1);
            Act (Free stack); Sys (Close p) rp; Sys (Close c) rc]
         /\ run_value (run fuel) = Some SB_FAILURE
         /\ live_blocks (run_trace (run fuel)) = []
         /\ open_fds (run_trace (run fuel)) = []).
Proof.
  intros Hin. pose proof (paths fuel) as P.
  rewrite live_blocks_nolog, open_fds_nolog.
  unfold run_trace, run_value in *.
  apply In_nolog in Hin; [| reflexivity].
  inversion P as [ w p c Ht
                 | w p c stack rp rc Hs Ht
                 | w p c stack pid' k rp rc Hs Hp Ht
                 | w p c stack pid' rr k rp rc Hs Hp Hr Ht
                 | w p c stack pid' rr rl k rd rp rc Hs Hp Hr Hl Ht
                 | w w1 p c stack pid' rr rl rw rp rc ws tp cx once coord o
                     Hs Hp Hr Hl Hw Hc Ht Hcl
                 | w p c stack pid' rr rl rw rp rc ws tp cx coord
                     Hs Hp Hr Hl Hw Hc Ht ]; subst.
  - rewrite Ht in Hin. in_path Hin.
  - rewrite Ht in *. in_path Hin. injection Hin as <- <- <- <-.
    split; [reflexivity | intros _].
    exists p, c, stack, rp, rc. repeat split; replay.
  - rewrite Ht in Hin. in_path Hin. injection Hin as <- <- <- <-.
    split; [reflexivity | contradiction].
  - rewrite Ht in Hin. in_path Hin. injection Hin as <- <- <- <-.
    split; [reflexivity | contradiction].
  - rewrite Ht in Hin. in_path Hin. injection Hin as <- <- <- <-.
    split; [reflexivity | contradiction].
  - destruct (classify_end _ _ _ _ _ Hcl) as [T V].
    rewrite T, Ht in Hin.
    destruct (reads_exceeded ws); in_path Hin; injection Hin as <- <- <- <-;
      (split; [reflexivity | contradiction]).
  - rewrite Ht in Hin.
    in_path Hin; injection Hin as <- <- <- <-;
      (split; [reflexivity | contradiction]).
Qed.

(** C8. Once [waitpid] has returned, the parent stores [terminated = 1] in
    the terminator's block before it reads [once]; if [once] is 1 it tests
    [done] until the flag is no longer 0, otherwise it stores [NULL] in
    [skip] and calls [terminate]; in both cases it then frees the block,
    and only after that runs the classification, on the status that
    [waitpid] delivered.  The run does not return exactly when the wait
    for [done] used up its fuel with every test reading 0. *)
Theorem sandboxExec_terminator_coordination (fuel : nat) (pid opts ws : Z) :
  In (Sys (Waitpid pid opts) ws) (run_trace (run fuel)) ->
  exists p c stack rr rl rw rp rc tp cx once coord rest,
    opts = 0
    /\ nolog (run_trace (run fuel)) =
         [Sys (Eventfd 0 0) p; Sys (Eventfd 0 0) c;
          Sys (Malloc child_stack_size) stack;
          Sys (Clone (stack + child_stack_size)
                 (Z.lor CLONE_NEWPID SIGCHLD)
                 (payload exe jail input output wl uid_ gid_ p c)) pid;
          Sys (Read p) rr; Act (Store Var_exceeded NO_EXCEED);
          Sys (SetResourceLimits pid res_lims cg_locs) rl;
          Sys (Write c 1) rw; Sys (Close p) rp; Sys (Close c) rc]
         ++ [Sys (Waitpid pid 0) ws; Sys (Load Var_tp) tp;
             Act (Store (Tp_terminated tp) 1); Act (Free stack);
             Sys (Load Var_ctx) cx]
         ++ (if cx =? NULL then [] else [Act (SeccompRelease cx)])
         ++ [Sys (Load (Tp_once tp)) once] ++ coord ++ rest
    /\ match run_value (run fuel) with
       | Some o =>
           (once = 1 ->
              exists n d, d <> 0
                /\ coord = repeat (Sys (Load (Tp_done tp)) 0) n
                           ++ [Sys (Load (Tp_done tp)) d])
           /\ (once <> 1 ->
                 exists rt,
                   coord = [Act (Store (Tp_skip tp) NULL);
                            Sys (Terminate tp) rt])
           /\ exists verdict w1,
                 rest = Act (Free tp) :: verdict
                 /\ Forall (fun e => exists ex,
                               e = Sys (Load Var_exceeded) ex) verdict
                 /\ nolog (run_trace (run fuel)) = nolog (tr w1) ++ verdict
                 /\ runState (classify env ws) w1
                    = (o, execState (run fuel) init)
       | None =>
           once = 1 /\ coord = repeat (Sys (Load (Tp_done tp)) 0) fuel
           /\ rest = []
       end.
Proof.
  intros Hin. pose proof (paths fuel) as P.
  unfold run_trace, run_value in *.
  apply In_nolog in Hin; [| reflexivity].
  inversion P as [ w p c Ht
                 | w p c stack rp rc Hs Ht
                 | w p c stack pid' k rp rc Hs Hp Ht
                 | w p c stack pid' rr k rp rc Hs Hp Hr Ht
                 | w p c stack pid' rr rl k rd rp rc Hs Hp Hr Hl Ht
                 | w w1 p c stack pid' rr rl rw rp rc ws' tp cx once coord o
                     Hs Hp Hr Hl Hw Hc Ht Hcl Hw0 Hv
                 | w p c stack pid' rr rl rw rp rc ws' tp cx coord
                     Hs Hp Hr Hl Hw Hc Ht Hw0 Hv ]; subst;
    try (rewrite Ht in Hin; in_path Hin; fail).
  - destruct (classify_end _ _ _ _ _ Hcl) as [T V].
    assert (Heq : pid' = pid /\ opts = 0 /\ ws' = ws).
    { rewrite T, Ht in Hin.
      destruct (reads_exceeded ws'); in_path Hin;
        injection Hin as <- <- <-; auto. }
    destruct Heq as (-> & -> & ->).
    exists p, c, stack, rr, rl, rw, rp, rc, tp, cx, once, coord,
      (Act (Free tp)
       :: (if reads_exceeded ws
           then [Sys (Load Var_exceeded) (env (next w1))] else [])).
    split; [reflexivity |]. split.
    + rewrite T, Ht. unfold started, released, reaped.
      rewrite <- !app_assoc. cbn [app]. reflexivity.
    + split; [| split].
      * intros ->. inversion Hc; subst; [eauto | congruence].
      * intros Ho. inversion Hc; subst; [congruence | eauto].
      * eexists _, w1. split; [reflexivity |]. split; [| split].
        -- destruct (reads_exceeded ws); repeat constructor. eauto.
        -- exact T.
        -- exact Hcl.
  - assert (Heq : pid' = pid /\ opts = 0 /\ ws' = ws).
    { rewrite Ht in Hin. in_path Hin; injection Hin as <- <- <-; auto. }
    destruct Heq as (-> & -> & ->).
    exists p, c, stack, rr, rl, rw, rp, rc, tp, cx, 1, coord, [].
    split; [reflexivity |]. split.
    + rewrite Ht. unfold started, released, reaped.
      rewrite <- !app_assoc, app_nil_r. cbn [app]. reflexivity.
    + inversion Hc; subst. auto.
Qed.

(** Enough fuel: the run returns as soon as one of the tests of [done]
    (the answers 13, 14, ... of the environment on the path that waits)
    reads something other than 0. *)
Lemma sandboxExec_returns (fuel k : nat) :
  (k < fuel)%nat -> env (13 + k)%nat <> 0 ->
  exists o, run_value (run fuel) = Some o.
Proof.
  intros Hk Hd. pose proof (paths fuel) as P. unfold run_value.
  inversion P; subst; eauto.
  match goal with H : coordination _ _ _ _ _ _ false |- _ =>
    inversion H as [ | Hz | ]; subst end.
  exfalso. apply Hd. apply Hz. exact Hk.
Qed.

(** Whatever the two calls of [eventfd] returned, -1 included, the child
    is cloned as soon as the stack could be allocated: the results of
    [eventfd] are not tested. *)
Lemma sandboxExec_clones_whatever_eventfd (fuel : nat) (sz stack : Z) :
  In (Sys (Malloc sz) stack) (run_trace (run fuel)) -> stack <> NULL ->
  exists p c pid,
    firstn 4 (nolog (run_trace (run fuel)))
    = [Sys (Eventfd 0 0) p; Sys (Eventfd 0 0) c;
       Sys (Malloc child_stack_size) stack;
       Sys (Clone (stack + child_stack_size) (Z.lor CLONE_NEWPID SIGCHLD)
              (payload exe jail input output wl uid_ gid_ p c)) pid].
Proof.
  intros Hin Hn. pose proof (paths fuel) as P. unfold run_trace in *.
  apply In_nolog in Hin; [| reflexivity].
  inversion P as [ w p c Ht
                 | w p c stack' rp rc Hs Ht
                 | w p c stack' pid' k rp rc Hs Hp Ht
                 | w p c stack' pid' rr k rp rc Hs Hp Hr Ht
                 | w p c stack' pid' rr rl k rd rp rc Hs Hp Hr Hl Ht
                 | w w1 p c stack' pid' rr rl rw rp rc ws' tp cx once coord o
                     Hs Hp Hr Hl Hw Hc Ht Hcl Hw0 Hv
                 | w p c stack' pid' rr rl rw rp rc ws' tp cx coord
                     Hs Hp Hr Hl Hw Hc Ht Hw0 Hv ]; subst.
  - rewrite Ht in Hin. in_path Hin. congruence.
  - rewrite Ht in *. in_path Hin. injection Hin as _ <-.
    exists p, c, (-1). reflexivity.
  - rewrite Ht in *. in_path Hin. injection Hin as _ <-.
    exists p, c, pid'. reflexivity.
  - rewrite Ht in *. in_path Hin. injection Hin as _ <-.
    exists p, c, pid'. reflexivity.
  - rewrite Ht in *. in_path Hin. injection Hin as _ <-.
    exists p, c, pid'. reflexivity.
  - destruct (classify_end _ _ _ _ _ Hcl) as [T V]. rewrite T, Ht in *.
    destruct (reads_exceeded ws'); in_path Hin; injection Hin as _ <-;
      exists p, c, pid'; reflexivity.
  - rewrite Ht in *. in_path Hin; injection Hin as _ <-;
      exists p, c, pid'; reflexivity.
Qed.

(** When [malloc] fails nothing else is done: no descriptor is closed. *)
Lemma sandboxExec_stack_failure (fuel : nat) (sz : Z) :
  In (Sys (Malloc sz) NULL) (run_trace (run fuel)) ->
  exists p c,
    nolog (run_trace (run fuel))
    = [Sys (Eventfd 0 0) p; Sys (Eventfd 0 0) c;
       Sys (Malloc child_stack_size) NULL]
    /\ run_value (run fuel) = Some SB_FAILURE.
Proof.
  intros Hin. pose proof (paths fuel) as P. unfold run_trace, run_value in *.
  apply In_nolog in Hin; [| reflexivity].
  inversion P as [ w p c Ht
                 | w p c stack' rp rc Hs Ht
                 | w p c stack' pid' k rp rc Hs Hp Ht
                 | w p c stack' pid' rr k rp rc Hs Hp Hr Ht
                 | w p c stack' pid' rr rl k rd rp rc Hs Hp Hr Hl Ht
                 | w w1 p c stack' pid' rr rl rw rp rc ws' tp cx once coord o
                     Hs Hp Hr Hl Hw Hc Ht Hcl Hw0 Hv
                 | w p c stack' pid' rr rl rw rp rc ws' tp cx coord
                     Hs Hp Hr Hl Hw Hc Ht Hw0 Hv ]; subst.
  - eauto.
  - rewrite Ht in Hin. in_path Hin. congruence.
  - rewrite Ht in Hin. in_path Hin. congruence.
  - rewrite Ht in Hin. in_path Hin. congruence.
  - rewrite Ht in Hin. in_path Hin. congruence.
  - destruct (classify_end _ _ _ _ _ Hcl) as [T V]. rewrite T, Ht in Hin.
    destruct (reads_exceeded ws'); in_path Hin; congruence.
  - rewrite Ht in Hin. in_path Hin; congruence.
Qed.

(** The channel is closed on every path on which the stack was
    allocated. *)
Lemma sandboxExec_channel_closed (fuel : nat) (sz stack : Z) :
  In (Sys (Malloc sz) stack) (run_trace (run fuel)) -> stack <> NULL ->
  open_fds (run_trace (run fuel)) = [].
Proof.
  intros Hin Hn. pose proof (paths fuel) as P.
  rewrite open_fds_nolog. unfold run_trace in *.
  apply In_nolog in Hin; [| reflexivity].
  inversion P as [ w p c Ht
                 | w p c stack' rp rc Hs Ht
                 | w p c stack' pid' k rp rc Hs Hp Ht
                 | w p c stack' pid' rr k rp rc Hs Hp Hr Ht
                 | w p c stack' pid' rr rl k rd rp rc Hs Hp Hr Hl Ht
                 | w w1 p c stack' pid' rr rl rw rp rc ws' tp cx once coord o
                     Hs Hp Hr Hl Hw Hc Ht Hcl Hw0 Hv
                 | w p c stack' pid' rr rl rw rp rc ws' tp cx coord
                     Hs Hp Hr Hl Hw Hc Ht Hw0 Hv ]; subst.
  - rewrite Ht in Hin. in_path Hin. congruence.
  - rewrite Ht. replay.
  - rewrite Ht. replay.
  - rewrite Ht. replay.
  - rewrite Ht. replay.
  - destruct (classify_end _ _ _ _ _ Hcl) as [T V]. rewrite T, Ht.
    unfold open_fds. rewrite !fold_left_app, (fd_coord _ _ _ _ _ _ _ Hc).
    destruct (reads_exceeded ws'); replay.
  - rewrite Ht.
    unfold open_fds. rewrite !fold_left_app, (fd_coord _ _ _ _ _ _ _ Hc).
    replay.
Qed.

(** On every path on which the child was reaped the stack has been
    freed. *)
Lemma sandboxExec_reaped_resources (fuel : nat) (pid opts ws : Z) :
  In (Sys (Waitpid pid opts) ws) (run_trace (run fuel)) ->
  live_blocks (run_trace (run fuel)) = [].
Proof.
  intros Hin. pose proof (paths fuel) as P.
  rewrite live_blocks_nolog. unfold run_trace in *.
  apply In_nolog in Hin; [| reflexivity].
  inversion P as [ w p c Ht
                 | w p c stack' rp rc Hs Ht
                 | w p c stack' pid' k rp rc Hs Hp Ht
                 | w p c stack' pid' rr k rp rc Hs Hp Hr Ht
                 | w p c stack' pid' rr rl k rd' rp rc Hs Hp Hr Hl Ht
                 | w w1 p c stack' pid' rr rl rw rp rc ws' tp cx once coord o
                     Hs Hp Hr Hl Hw Hc Ht Hcl Hw0 Hv
                 | w p c stack' pid' rr rl rw rp rc ws' tp cx coord
                     Hs Hp Hr Hl Hw Hc Ht Hw0 Hv ]; subst;
    try (rewrite Ht in Hin; in_path Hin; fail).
  - destruct (classify_end _ _ _ _ _ Hcl) as [T V].
    assert (pid' = pid).
    { rewrite T, Ht in Hin.
      destruct (reads_exceeded ws'); in_path Hin; congruence. }
    subst pid'. rewrite T, Ht. unfold live_blocks.
    rewrite !fold_left_app, (heap_coord _ _ _ _ _ _ _ Hc).
    destruct (reads_exceeded ws'); replay.
  - assert (pid' = pid).
    { rewrite Ht in Hin. in_path Hin; congruence. }
    subst pid'. rewrite Ht. unfold live_blocks.
    rewrite !fold_left_app, (heap_coord _ _ _ _ _ _ _ Hc).
    replay.
Qed.


(** C10. When the child that was reaped exited normally with status 1,
    [sandboxExec] does not look at [exceeded] and returns [SB_FAILURE]
    (unless it is still waiting for the terminator's [done]: the fuel was
    used up by tests that all read 0); nothing has to have failed for
    that.  Status 1 is what [childFunc] returns for a failed setup, so the
    two cases reach the parent as the same wait status. *)
Theorem sandboxExec_exit_status_one (fuel : nat) (pid opts ws : Z) :
  In (Sys (Waitpid pid opts) ws) (run_trace (run fuel)) ->
  WIFEXITED ws = true -> WEXITSTATUS ws = 1 ->
  (forall ex, ~ In (Sys (Load Var_exceeded) ex) (run_trace (run fuel)))
  /\ (run_value (run fuel) = Some SB_FAILURE
      \/ (run_value (run fuel) = None
          /\ exists t tp,
               nolog (run_trace (run fuel))
               = t ++ repeat (Sys (Load (Tp_done tp)) 0) fuel))
  /\ (forall env' cp s,
        run_value (childFunc env' cp) = Returned s ->
        s = 1 /\ WIFEXITED (W_EXITCODE s 0) = true
        /\ WEXITSTATUS (W_EXITCODE s 0) = 1).
Proof.
  intros Hin He Hs.
  assert (Hr : reads_exceeded ws = false).
  { unfold reads_exceeded. rewrite He, Hs. reflexivity. }
  pose proof (paths fuel) as P. unfold run_trace, run_value in *.
  split; [| split].
  - intros ex Hex.
    destruct (evalState (run fuel) init) as [o |] eqn:Hv.
    + destruct (reaped_verdict fuel pid opts ws o Hin Hv)
        as (ex0 & w1 & _ & _ & U).
      apply U in Hex. destruct Hex as [Hex _]. congruence.
    + apply In_nolog in Hex; [| reflexivity].
      inversion P; subst.
      match goal with H : nolog _ = _ |- _ => rewrite H in Hex end.
      in_path Hex.
  - destruct (evalState (run fuel) init) as [o |] eqn:Hv.
    + left. f_equal.
      destruct (reaped_verdict fuel pid opts ws o Hin Hv)
        as (ex0 & w1 & V & _). rewrite Hr in V. exact V.
    + right. split; [reflexivity |].
      inversion P; subst.
      match goal with H : coordination _ _ _ _ _ _ false |- _ =>
        inversion H; subst end.
      match goal with H : nolog _ = _ |- _ => rewrite H end.
      rewrite !app_assoc. eauto.
  - intros env' cp s Hret. apply childFunc_returns_failure in Hret. subst s.
    repeat split.
Qed.


End Claims.

(** C2. In every run of [childFunc] that calls [execl], the call is
    preceded, in this order and immediately, by a successful [chdir] into
    the jail, [chroot], [setgid], [setuid] and [installSysCallBlocker], and
    only the log follows it; and whenever one of these five steps fails,
    [childFunc] returns [EXIT_CHILD_FAILURE] and its run has no [execl]. *)
Theorem childFunc_jail_before_exec (env : nat -> Z) (cp : ChildPayload) :
  (forall p a r,
     In (Sys (Execl p a) r) (run_trace (childFunc env cp)) ->
     exists pre wfd r1 r2 r3 r4 r5 post,
       run_trace (childFunc env cp) =
         pre ++
         [Sys (Chdir (jail_path cp)) r1; Sys (Chroot "./") r2;
          Sys (Setgid (gid cp)) r3; Sys (Setuid (uid cp)) r4;
          Sys (InstallSysCallBlocker (ctx cp) wfd) r5;
          Sys (Execl p a) r] ++ post
       /\ r1 <> -1 /\ r2 <> -1 /\ r3 <> -1 /\ r4 <> -1 /\ r5 <> -1
       /\ p = exect_path cp
       /\ existsb is_execl pre = false
       /\ forallb is_log post = true)
  /\ (forall c,
        In (Sys c (-1)) (run_trace (childFunc env cp)) ->
        confinement c = true ->
        run_value (childFunc env cp) = Returned EXIT_CHILD_FAILURE
        /\ existsb is_execl (run_trace (childFunc env cp)) = false).
Proof.
  unfold run_trace, run_value, execState, evalState, childFunc. cbn.
  repeat branch.
  all: split; [intros p a r H | intros c H Hc].
  all: cbn in H.
  all: repeat (destruct H as [H | H];
               [try discriminate H;
                try (injection H as <- ?; try discriminate Hc; congruence) | ]);
       try contradiction.
  all: try (injection H as <- <- <-).
  all: try
    match goal with
    | |- exists pre, _ =>
        match goal with
        | |- context [?t = _ ++ _] => exists (firstn 11 t); cbn [firstn]
        end;
        do 7 eexists; split;
        [reflexivity | repeat split; assumption || reflexivity]
    end.
  all: split; reflexivity.
Qed.

(** ** More on [childFunc] *)

(** Splits a membership in the explicit trace of a leaf into its events. *)
Ltac in_leaf H :=
  cbn in H;
  repeat (destruct H as [H | H]; [subst | ]);
  try contradiction.

(** X1. [childFunc] takes none of the steps that the go-token guards -
    [chdir], [chroot], [setgid], [setuid], the filter, [execl] - unless it
    has before written its ready-token to [notify_p] and then read the
    go-token from [notify_c], both with success. *)
Theorem childFunc_waits_for_go (env : nat -> Z) (cp : ChildPayload)
    (e : event) :
  In e (run_trace (childFunc env cp)) -> guarded e = true ->
  exists pre rw rr post,
    run_trace (childFunc env cp) =
      pre ++ [Sys (Write (notify_p cp) 1) rw; Sys (Read (notify_c cp)) rr]
      ++ post
    /\ rw <> -1 /\ rr <> -1
    /\ In e post
    /\ existsb guarded pre = false.
Proof.
  unfold run_trace, run_value, execState, evalState, childFunc. cbn.
  repeat branch; intros H Hg; in_leaf H; try discriminate Hg.
  all: match goal with
       | |- context [?t = _ ++ _] =>
           exists (firstn 6 t), (env 6%nat), (env 7%nat), (skipn 8 t)
       end.
  all: cbn [firstn skipn app].
  all: repeat split; try assumption; try reflexivity.
  all: cbn; tauto.
Qed.

(** X2. When [childFunc] writes its ready-token, it has opened the input
    file read-only and the output file write-only with create and truncate,
    put them on descriptors 0 and 1 with [dup2] and closed the two
    originals, every step with success; the token is the value 1, written
    to [notify_p]. *)
Theorem childFunc_redirects_before_ready (env : nat -> Z) (cp : ChildPayload)
    (fd u r : Z) :
  In (Sys (Write fd u) r) (run_trace (childFunc env cp)) ->
  exists i o r1 r2 r3 r4,
    firstn 7 (run_trace (childFunc env cp)) =
      [Sys (Open (input_file cp) O_RDONLY) i;
       Sys (Open (output_file cp) (Z.lor (Z.lor O_WRONLY O_CREAT) O_TRUNC)) o;
       Sys (Dup2 i STDIN_FILENO) r1; Sys (Dup2 o STDOUT_FILENO) r2;
       Sys (Close i) r3; Sys (Close o) r4;
       Sys (Write (notify_p cp) 1) r]
    /\ i <> -1 /\ o <> -1 /\ r1 <> -1 /\ r2 <> -1 /\ r3 <> -1 /\ r4 <> -1
    /\ fd = notify_p cp /\ u = 1.
Proof.
  unfold run_trace, run_value, execState, evalState, childFunc. cbn.
  repeat branch; intros H; in_leaf H; try discriminate H.
  all: injection H as <- <- <-.
  all: do 6 eexists; cbn [firstn]; split; [reflexivity |].
  all: repeat split; assumption.
Qed.

(** X3. When [childFunc] changes into the jail, it has closed both ends of
    the channel and then opened the whitelist, read-only and close-on-exec,
    all with success; the descriptor that [installSysCallBlocker] gets
    later is the one this [open] returned, with the context of the
    payload. *)
Theorem childFunc_whitelist_before_jail (env : nat -> Z) (cp : ChildPayload)
    (d : string) (r : Z) :
  In (Sys (Chdir d) r) (run_trace (childFunc env cp)) ->
  exists pre rc rp wfd post,
    run_trace (childFunc env cp) =
      pre ++ [Sys (Close (notify_c cp)) rc; Sys (Close (notify_p cp)) rp;
              Sys (Open (whitelist cp) (Z.lor O_RDONLY O_CLOEXEC)) wfd;
              Sys (Chdir (jail_path cp)) r] ++ post
    /\ rc <> -1 /\ rp <> -1 /\ wfd <> -1 /\ d = jail_path cp
    /\ existsb guarded pre = false
    /\ (forall l fd r',
          In (Sys (InstallSysCallBlocker l fd) r') post ->
          l = ctx cp /\ fd = wfd).
Proof.
  unfold run_trace, run_value, execState, evalState, childFunc. cbn.
  repeat branch; intros H; in_leaf H; try discriminate H.
  all: injection H as <- <-.
  all: match goal with
       | |- context [?t = _ ++ _] =>
           exists (firstn 8 t), (env 8%nat), (env 9%nat), (env 10%nat),
             (skipn 12 t)
       end.
  all: cbn [firstn skipn app].
  all: repeat (split; [solve [assumption | reflexivity] | ]).
  all: intros l fd r' H; in_leaf H; try discriminate H.
  all: injection H as <- <- <-; split; reflexivity.
Qed.

(** X4. [childFunc] stops at the first call that fails: a call that answers
    -1 is the last call of the run, only the logger follows it, no call
    before it answered -1, and the status returned is
    [EXIT_CHILD_FAILURE]. *)
Theorem childFunc_fails_fast (env : nat -> Z) (cp : ChildPayload) (c : call) :
  In (Sys c (-1)) (run_trace (childFunc env cp)) ->
  run_value (childFunc env cp) = Returned EXIT_CHILD_FAILURE
  /\ exists pre logs,
       run_trace (childFunc env cp) = pre ++ Sys c (-1) :: logs
       /\ forallb is_log logs = true
       /\ existsb is_log pre = false
       /\ (forall c' r', In (Sys c' r') pre -> r' <> -1).
Proof.
  unfold run_trace, run_value, execState, evalState, childFunc. cbn.
  repeat branch; intros H; in_leaf H; try discriminate H.
  all: try (injection H as <- H; congruence).
  all: injection H as <- Hr.
  all: split; [reflexivity |].
  all: match goal with
       | |- context [?t = _ ++ _] =>
           exists (removelast (nolog t)), (skipn (List.length (nolog t)) t)
       end.
  all: cbn [nolog filter is_log negb removelast skipn List.length app].
  all: split; [rewrite Hr; reflexivity |].
  all: split; [reflexivity |]. all: split; [reflexivity |].
  all: intros c' r' Hin; in_leaf Hin; injection Hin as <- <-; assumption.
Qed.

(** X5. What [childFunc] logs: at most one entry, an error with the errno
    flag set, right after the call that answered -1 and as the last event
    of the run; nothing when [installSysCallBlocker] is the call that
    failed, and nothing when [execl] succeeded. *)
Theorem childFunc_logging (env : nat -> Z) (cp : ChildPayload) :
  (forall l,
     In (Log l) (run_trace (childFunc env cp)) ->
     exists pre c line msg,
       run_trace (childFunc env cp)
       = pre ++ [Sys c (-1); Log (PrintErr line msg 1)]
       /\ l = PrintErr line msg 1
       /\ existsb is_log pre = false)
  /\ (forall l fd,
        In (Sys (InstallSysCallBlocker l fd) (-1))
           (run_trace (childFunc env cp)) ->
        existsb is_log (run_trace (childFunc env cp)) = false)
  /\ (run_value (childFunc env cp) = Execed ->
      existsb is_log (run_trace (childFunc env cp)) = false).
Proof.
  unfold run_trace, run_value, execState, evalState, childFunc. cbn.
  repeat branch.
  all: split; [intros l H | split; [intros l fd H | intros H]].
  all: try discriminate H; try reflexivity.
  all: in_leaf H; try discriminate H.
  all: try (injection H as <-;
            match goal with
            | |- context [?t = _ ++ _] => exists (removelast (removelast t))
            end;
            cbn [removelast]; do 3 eexists;
            split; [ match goal with E : _ = -1 |- _ => rewrite E end;
                     reflexivity
                   | split; reflexivity ]).
  all: try (injection H as _ _ H; congruence).
  all: reflexivity.
Qed.

(** The calls of [childFunc], with where their arguments come from. *)
Lemma childFunc_calls (env : nat -> Z) (cp : ChildPayload) (c : call) (r : Z) :
  In (Sys c r) (run_trace (childFunc env cp)) ->
  match c with
  | Open f fl =>
      (f = input_file cp /\ fl = O_RDONLY)
      \/ (f = output_file cp /\ fl = Z.lor (Z.lor O_WRONLY O_CREAT) O_TRUNC)
      \/ (f = whitelist cp /\ fl = Z.lor O_RDONLY O_CLOEXEC)
  | Dup2 _ n => n = STDIN_FILENO \/ n = STDOUT_FILENO
  | Close _ => True
  | Write fd u => fd = notify_p cp /\ u = 1
  | Read fd => fd = notify_c cp
  | Chdir d => d = jail_path cp
  | Chroot d => d = "./"%string
  | Setgid g => g = gid cp
  | Setuid u => u = uid cp
  | InstallSysCallBlocker l _ => l = ctx cp
  | Execl a b => a = exect_path cp /\ b = exect_path cp
  | _ => False
  end.
Proof.
  unfold run_trace, run_value, execState, evalState, childFunc. cbn.
  repeat branch; intros H; in_leaf H; try discriminate H.
  all: injection H as <- _; cbn; auto.
Qed.

(** ** More on [sandboxExecFailCleanup] *)

(** X6. [sandboxExecFailCleanup] frees the stack and calls [close] on both
    descriptors, in this order, also when the first [close] fails; it
    returns -1 exactly when one of the two answered -1 and 0 otherwise, and
    logs one error for each [close] that failed. *)
Theorem sandboxExecFailCleanup_does_both (env : nat -> Z)
    (p c stack : Z) (w : world) :
  let r := evalState (sandboxExecFailCleanup env p c stack) w in
  let w' := execState (sandboxExecFailCleanup env p c stack) w in
  exists rp rc,
    nolog (tr w')
    = nolog (tr w) ++ [Act (Free stack); Sys (Close p) rp; Sys (Close c) rc]
    /\ (r = -1 <-> rp = -1 \/ rc = -1)
    /\ (r = 0 <-> rp <> -1 /\ rc <> -1)
    /\ List.length (filter is_err (tr w'))
       = (List.length (filter is_err (tr w))
          + (if (rp =? -1)%Z then 1 else 0)
          + (if (rc =? -1)%Z then 1 else 0))%nat.
Proof.
  unfold sandboxExecFailCleanup, evalState, execState. cbn.
  exists (env (next w)), (env (S (next w))).
  destruct (Z.eqb_spec (env (next w)) (-1)) as [E1 | E1]; cbn;
    destruct (Z.eqb_spec (env (S (next w))) (-1)) as [E2 | E2]; cbn;
    rewrite ?nolog_app, ?filter_app, ?length_app; cbn;
    rewrite <- ?app_assoc, ?app_nil_r; cbn;
    (split; [reflexivity |]); (split; [| split]); try lia; try tauto;
    split; intros; try discriminate; try tauto; intuition congruence.
Qed.

(** ** Projections of a path *)

Section Projections.

Context {A : Type} (f : event -> list A).

Lemma flat_map_nolog (t : list event) :
  (forall l, f (Log l) = []) -> flat_map f t = flat_map f (nolog t).
Proof.
  intros H. induction t as [| e t IH]; cbn; [reflexivity |].
  destruct e; cbn; rewrite IH; try reflexivity. now rewrite H.
Qed.

Lemma flat_map_coord (env : nat -> Z) (fuel base : nat) (tp once : Z)
    (coord : list event) (b : bool) :
  (forall l r, f (Sys (Load l) r) = []) ->
  (forall l v, f (Act (Store l v)) = []) ->
  (forall t r, f (Sys (Terminate t) r) = []) ->
  coordination env fuel base tp once coord b ->
  flat_map f coord = [].
Proof.
  intros HL HS HT Hc.
  assert (N : forall e, In e coord -> f e = []).
  { intros e He.
    destruct (coordination_events env _ _ _ _ _ _ e Hc He)
      as [[d ->] | [-> | [rt ->]]]; auto. }
  clear Hc. induction coord as [| e l IH]; cbn; [reflexivity |].
  rewrite (N e (or_introl eq_refl)), IH; [reflexivity |].
  intros e' He'. apply N. now right.
Qed.

End Projections.

(** ** More on [sandboxExec] *)

Section More.

Variable env : nat -> Z.
Context {codes : ExceedCodes}.
Variables (exe jail input output : string) (cg_locs res_lims : Z)
          (wl : string) (uid_ gid_ : Z).

Local Abbreviation run fuel :=
  (sandboxExec env fuel exe jail input output cg_locs res_lims wl uid_ gid_).

(** The cases of a run, with every hypothesis named. *)
Ltac run_cases P :=
  inversion P as [ w p c Ht
                 | w p c stack rp rc Hs Ht
                 | w p c stack pid' k rp rc Hs Hp Ht
                 | w p c stack pid' rr k rp rc Hs Hp Hr Ht
                 | w p c stack pid' rr rl k rd rp rc Hs Hp Hr Hl Ht
                 | w w1 p c stack pid' rr rl rw rp rc ws' tp cx once coord o'
                     Hs Hp Hr Hl Hw Hc Ht Hcl Hw0 Hv
                 | w p c stack pid' rr rl rw rp rc ws' tp cx coord
                     Hs Hp Hr Hl Hw Hc Ht Hw0 Hv ]; subst.

(** The whole trace of a path on which the child was reaped and the run
    returned. *)
Ltac reaped_trace Hcl Ht T V :=
  destruct (classify_end _ _ _ _ _ Hcl) as [T V]; rewrite Ht in T.

(** X7. When the read of the ready-token fails, the parent sends SIGTERM to
    the child, frees the stack, closes both descriptors and returns
    [SB_FAILURE]; the limits are not installed and the child is not
    released. *)
Theorem sandboxExec_ready_token_failure (fuel : nat) (fd : Z) :
  In (Sys (Read fd) (-1)) (run_trace (run fuel)) ->
  exists p c stack pid k rp rc,
    fd = p /\ stack <> NULL /\ pid <> -1
    /\ nolog (run_trace (run fuel)) =
         [Sys (Eventfd 0 0) p; Sys (Eventfd 0 0) c;
          Sys (Malloc child_stack_size) stack;
          Sys (Clone (stack + child_stack_size)
                 (Z.lor CLONE_NEWPID SIGCHLD)
                 (payload exe jail input output wl uid_ gid_ p c)) pid;
          Sys (Read p) (-1); Sys (Kill pid SIGTERM) k;
          Act (Free stack); Sys (Close p) rp; Sys (Close c) rc]
    /\ run_value (run fuel) = Some SB_FAILURE
    /\ live_blocks (run_trace (run fuel)) = []
    /\ open_fds (run_trace (run fuel)) = [].
Proof.
  intros Hin. pose proof (paths env exe jail input output cg_locs res_lims
                            wl uid_ gid_ fuel) as P.
  rewrite live_blocks_nolog, open_fds_nolog.
  unfold run_trace, run_value in *.
  apply In_nolog in Hin; [| reflexivity].
  run_cases P.
  - rewrite Ht in Hin. in_path Hin.
  - rewrite Ht in Hin. in_path Hin.
  - rewrite Ht in *. in_path Hin. injection Hin as <-.
    exists p, c, stack, pid', k, rp, rc.
    repeat split; try assumption; try reflexivity; replay.
  - rewrite Ht in Hin. in_path Hin. congruence.
  - rewrite Ht in Hin. in_path Hin. congruence.
  - reaped_trace Hcl Ht T V. rewrite T in Hin.
    destruct (reads_exceeded ws'); in_path Hin; congruence.
  - rewrite Ht in Hin. in_path Hin; congruence.
Qed.

(** X8. When [setResourceLimits] fails, the parent sends SIGTERM to the
    child, frees the stack, closes both descriptors and returns
    [SB_FAILURE]; it does not write the go-token, and calls neither
    [removePidDirs] nor [terminate]. *)
Theorem sandboxExec_limits_failure (fuel : nat) (pid lims locs : Z) :
  In (Sys (SetResourceLimits pid lims locs) (-1)) (run_trace (run fuel)) ->
  exists p c stack rr k rp rc,
    lims = res_lims /\ locs = cg_locs /\ stack <> NULL /\ pid <> -1
    /\ rr <> -1
    /\ nolog (run_trace (run fuel)) =
         [Sys (Eventfd 0 0) p; Sys (Eventfd 0 0) c;
          Sys (Malloc child_stack_size) stack;
          Sys (Clone (stack + child_stack_size)
                 (Z.lor CLONE_NEWPID SIGCHLD)
                 (payload exe jail input output wl uid_ gid_ p c)) pid;
          Sys (Read p) rr; Act (Store Var_exceeded NO_EXCEED);
          Sys (SetResourceLimits pid res_lims cg_locs) (-1);
          Sys (Kill pid SIGTERM) k;
          Act (Free stack); Sys (Close p) rp; Sys (Close c) rc]
    /\ run_value (run fuel) = Some SB_FAILURE
    /\ live_blocks (run_trace (run fuel)) = []
    /\ open_fds (run_trace (run fuel)) = [].
Proof.
  intros Hin. pose proof (paths env exe jail input output cg_locs res_lims
                            wl uid_ gid_ fuel) as P.
  rewrite live_blocks_nolog, open_fds_nolog.
  unfold run_trace, run_value in *.
  apply In_nolog in Hin; [| reflexivity].
  run_cases P.
  - rewrite Ht in Hin. in_path Hin.
  - rewrite Ht in Hin. in_path Hin.
  - rewrite Ht in Hin. in_path Hin.
  - rewrite Ht in *. in_path Hin. injection Hin as <- <- <-.
    exists p, c, stack, rr, k, rp, rc.
    repeat split; try assumption; try reflexivity; replay.
  - rewrite Ht in Hin. in_path Hin. congruence.
  - reaped_trace Hcl Ht T V. rewrite T in Hin.
    destruct (reads_exceeded ws'); in_path Hin; congruence.
  - rewrite Ht in Hin. in_path Hin; congruence.
Qed.

(** X9. The parent releases the child only after the limits are in place:
    every write of the go-token comes right after a successful
    [setResourceLimits] for the pid that [clone] returned, which comes after
    the successful read of the child's ready-token. *)
Theorem sandboxExec_go_after_limits (fuel : nat) (fd u res : Z) :
  In (Sys (Write fd u) res) (run_trace (run fuel)) ->
  exists p c stack pid rr rl rest,
    fd = c /\ u = 1 /\ pid <> -1 /\ rr <> -1 /\ rl <> -1
    /\ nolog (run_trace (run fuel)) =
         [Sys (Eventfd 0 0) p; Sys (Eventfd 0 0) c;
          Sys (Malloc child_stack_size) stack;
          Sys (Clone (stack + child_stack_size)
                 (Z.lor CLONE_NEWPID SIGCHLD)
                 (payload exe jail input output wl uid_ gid_ p c)) pid;
          Sys (Read p) rr; Act (Store Var_exceeded NO_EXCEED);
          Sys (SetResourceLimits pid res_lims cg_locs) rl;
          Sys (Write c 1) res] ++ rest.
Proof.
  intros Hin. pose proof (paths env exe jail input output cg_locs res_lims
                            wl uid_ gid_ fuel) as P.
  unfold run_trace, run_value in *.
  apply In_nolog in Hin; [| reflexivity].
  run_cases P.
  - rewrite Ht in Hin. in_path Hin.
  - rewrite Ht in Hin. in_path Hin.
  - rewrite Ht in Hin. in_path Hin.
  - rewrite Ht in Hin. in_path Hin.
  - rewrite Ht in *. in_path Hin. injection Hin as <- <- <-.
    exists p, c, stack, pid', rr, rl. eexists.
    repeat (split; [solve [assumption | reflexivity] |]). reflexivity.
  - reaped_trace Hcl Ht T V. rewrite T in *.
    destruct (reads_exceeded ws'); in_path Hin; injection Hin as <- <- <-;
      exists p, c, stack, pid', rr, rl; eexists;
      (repeat (split; [solve [assumption | reflexivity] |]));
      unfold started, released; cbn [app]; reflexivity.
  - rewrite Ht in *. in_path Hin; injection Hin as <- <- <-;
      exists p, c, stack, pid', rr, rl; eexists;
      (repeat (split; [solve [assumption | reflexivity] |]));
      unfold started, released; cbn [app]; reflexivity.
Qed.

(** X10. The parent touches the terminator - the pointer [tp], the fields
    of its block, [terminate] - only after [waitpid] has returned; on the
    paths that abort before, the go-token failure after the installer armed
    the terminator included, it does not touch it at all. *)
Theorem sandboxExec_terminator_after_reap (fuel : nat) (e : event) :
  In e (run_trace (run fuel)) -> touches_terminator e = true ->
  exists pre pid ws post,
    nolog (run_trace (run fuel)) = pre ++ Sys (Waitpid pid 0) ws :: post
    /\ In e post
    /\ existsb touches_terminator pre = false.
Proof.
  intros Hin Ht0. pose proof (paths env exe jail input output cg_locs res_lims
                                wl uid_ gid_ fuel) as P.
  unfold run_trace, run_value in *.
  apply In_nolog in Hin; [| destruct e; try reflexivity; discriminate Ht0].
  run_cases P;
    try (rewrite Ht in Hin; in_path Hin; subst e; discriminate Ht0).
  - reaped_trace Hcl Ht T V.
    assert (Hshape :
      nolog (tr (execState (run fuel) init))
      = (started exe jail input output wl uid_ gid_ p c stack pid'
         ++ released cg_locs res_lims p c pid' rr rl rw rp rc)
        ++ Sys (Waitpid pid' 0) ws'
           :: ([Sys (Load Var_tp) tp; Act (Store (Tp_terminated tp) 1);
                Act (Free stack); Sys (Load Var_ctx) cx]
               ++ (if cx =? NULL then [] else [Act (SeccompRelease cx)])
               ++ [Sys (Load (Tp_once tp)) once] ++ coord ++ [Act (Free tp)]
               ++ (if reads_exceeded ws'
                   then [Sys (Load Var_exceeded) (env (next w1))] else []))).
    { rewrite T. unfold reaped. rewrite <- !app_assoc. reflexivity. }
    rewrite Hshape in Hin. eexists _, pid', ws', _.
    split; [exact Hshape |]. split; [| reflexivity].
    apply in_app_or in Hin. destruct Hin as [Hin | [Hin | Hin]].
    + in_path Hin; subst e; discriminate Ht0.
    + subst e. discriminate Ht0.
    + exact Hin.
  - assert (Hshape :
      nolog (tr (execState (run fuel) init))
      = (started exe jail input output wl uid_ gid_ p c stack pid'
         ++ released cg_locs res_lims p c pid' rr rl rw rp rc)
        ++ Sys (Waitpid pid' 0) ws'
           :: ([Sys (Load Var_tp) tp; Act (Store (Tp_terminated tp) 1);
                Act (Free stack); Sys (Load Var_ctx) cx]
               ++ (if cx =? NULL then [] else [Act (SeccompRelease cx)])
               ++ [Sys (Load (Tp_once tp)) 1] ++ coord)).
    { rewrite Ht. unfold reaped. rewrite <- !app_assoc. reflexivity. }
    rewrite Hshape in Hin. eexists _, pid', ws', _.
    split; [exact Hshape |]. split; [| reflexivity].
    apply in_app_or in Hin. destruct Hin as [Hin | [Hin | Hin]].
    + in_path Hin; subst e; discriminate Ht0.
    + subst e. discriminate Ht0.
    + exact Hin.
Qed.

(** Evaluates a projection on the trace of a path. *)
Ltac project Hc :=
  unfold signals, frees, closes, releases, started, released, reaped,
    cleaned;
  rewrite ?flat_map_app;
  try rewrite (flat_map_coord _ _ _ _ _ _ _ _
                 (fun _ _ => eq_refl) (fun _ _ => eq_refl)
                 (fun _ _ => eq_refl) Hc);
  cbn [flat_map app];
  repeat match goal with
         | |- context [if ?b then _ else _] => destruct b
         end;
  cbn [flat_map app].

(** X11. The only signal the parent ever sends is one SIGTERM, to the pid
    that [clone] returned, on a path that aborts before [waitpid] and
    returns [SB_FAILURE]; once the child was reaped nothing is sent. *)
Theorem sandboxExec_signals (fuel : nat) (pid sig : Z) :
  In (pid, sig) (signals (run_trace (run fuel))) ->
  signals (run_trace (run fuel)) = [(pid, SIGTERM)]
  /\ sig = SIGTERM /\ pid <> -1
  /\ (exists st fl cp, In (Sys (Clone st fl cp) pid) (run_trace (run fuel)))
  /\ run_value (run fuel) = Some SB_FAILURE
  /\ (forall p o ws, ~ In (Sys (Waitpid p o) ws) (run_trace (run fuel))).
Proof.
  intros Hin. pose proof (paths env exe jail input output cg_locs res_lims
                            wl uid_ gid_ fuel) as P.
  rewrite signals_nolog in *. unfold run_trace, run_value in *.
  assert (Hcln : forall st fl cp pid0,
             In (Sys (Clone st fl cp) pid0)
                (nolog (tr (execState (run fuel) init))) ->
             exists st fl cp,
               In (Sys (Clone st fl cp) pid0)
                  (tr (execState (run fuel) init))).
  { intros st fl cp pid0 H. exists st, fl, cp. now apply nolog_In. }
  assert (Hnw : forall p o ws,
             (~ In (Sys (Waitpid p o) ws)
                   (nolog (tr (execState (run fuel) init)))) ->
             ~ In (Sys (Waitpid p o) ws) (tr (execState (run fuel) init))).
  { intros p o ws H H'. apply H. now apply In_nolog. }
  run_cases P.
  - rewrite Ht in Hin. cbn in Hin. contradiction.
  - rewrite Ht in Hin. cbn in Hin. contradiction.
  - rewrite Ht in *. cbn in Hin. destruct Hin as [Hin | []].
    injection Hin as <- <-.
    repeat (split; [solve [assumption | reflexivity] |]).
    split; [eapply Hcln; unfold started; cbn; eauto 6 |].
    split; [reflexivity |].
    intros p0 o ws. apply Hnw. intros H. in_path H.
  - rewrite Ht in *. cbn in Hin. destruct Hin as [Hin | []].
    injection Hin as <- <-.
    repeat (split; [solve [assumption | reflexivity] |]).
    split; [eapply Hcln; unfold started; cbn; eauto 6 |].
    split; [reflexivity |].
    intros p0 o ws. apply Hnw. intros H. in_path H.
  - rewrite Ht in *. cbn in Hin. destruct Hin as [Hin | []].
    injection Hin as <- <-.
    repeat (split; [solve [assumption | reflexivity] |]).
    split; [eapply Hcln; unfold started; cbn; eauto 6 |].
    split; [reflexivity |].
    intros p0 o ws. apply Hnw. intros H. in_path H.
  - reaped_trace Hcl Ht T V. rewrite T in Hin. exfalso. revert Hin.
    project Hc; intros [].
  - rewrite Ht in Hin. exfalso. revert Hin. project Hc; intros [].
Qed.

(** X12. Nothing is released twice and nothing is kept: on every path on
    which the stack was allocated [close] is called exactly twice, once on
    each descriptor of the channel.  A run that returns after [waitpid] has
    called [free] exactly twice, on the stack and then on the block read
    from [tp]; a run that aborts before [waitpid], or that is still waiting
    for [done], has called it exactly once, on the stack. *)
Theorem sandboxExec_releases_once (fuel : nat) (sz blk : Z) :
  In (Sys (Malloc sz) blk) (run_trace (run fuel)) -> blk <> NULL ->
  exists p c,
    firstn 2 (nolog (run_trace (run fuel)))
    = [Sys (Eventfd 0 0) p; Sys (Eventfd 0 0) c]
    /\ closes (run_trace (run fuel)) = [p; c]
    /\ (forall pid opts ws o,
          In (Sys (Waitpid pid opts) ws) (run_trace (run fuel)) ->
          run_value (run fuel) = Some o ->
          exists tp,
            In (Sys (Load Var_tp) tp) (run_trace (run fuel))
            /\ frees (run_trace (run fuel)) = [blk; tp])
    /\ ((forall pid opts ws,
           ~ In (Sys (Waitpid pid opts) ws) (run_trace (run fuel))) ->
        frees (run_trace (run fuel)) = [blk])
    /\ (run_value (run fuel) = None ->
        frees (run_trace (run fuel)) = [blk]).
Proof.
  intros Hin Hn. pose proof (paths env exe jail input output cg_locs res_lims
                               wl uid_ gid_ fuel) as P.
  unfold closes, frees.
  rewrite !(flat_map_nolog _ (run_trace (run fuel)) (fun _ => eq_refl)).
  fold (closes (nolog (run_trace (run fuel)))).
  fold (frees (nolog (run_trace (run fuel)))).
  unfold run_trace, run_value in *.
  apply In_nolog in Hin; [| reflexivity].
  run_cases P.
  - rewrite Ht in Hin. in_path Hin. congruence.
  - rewrite Ht in *. in_path Hin. injection Hin as _ <-.
    exists p, c. split; [reflexivity |]. split; [reflexivity |].
    split; [| split; intros _; reflexivity].
    intros p0 opts ws o Hwp _. apply In_nolog in Hwp; [| reflexivity].
    rewrite Ht in Hwp. in_path Hwp.
  - rewrite Ht in *. in_path Hin. injection Hin as _ <-.
    exists p, c. split; [reflexivity |]. split; [reflexivity |].
    split; [| split; intros _; reflexivity].
    intros p0 opts ws o Hwp _. apply In_nolog in Hwp; [| reflexivity].
    rewrite Ht in Hwp. in_path Hwp.
  - rewrite Ht in *. in_path Hin. injection Hin as _ <-.
    exists p, c. split; [reflexivity |]. split; [reflexivity |].
    split; [| split; intros _; reflexivity].
    intros p0 opts ws o Hwp _. apply In_nolog in Hwp; [| reflexivity].
    rewrite Ht in Hwp. in_path Hwp.
  - rewrite Ht in *. in_path Hin. injection Hin as _ <-.
    exists p, c. split; [reflexivity |]. split; [reflexivity |].
    split; [| split; intros _; reflexivity].
    intros p0 opts ws o Hwp _. apply In_nolog in Hwp; [| reflexivity].
    rewrite Ht in Hwp. in_path Hwp.
  - reaped_trace Hcl Ht T V.
    assert (stack = blk).
    { rewrite T in Hin.
      destruct (reads_exceeded ws'); in_path Hin; congruence. }
    subst blk.
    assert (Wp : In (Sys (Waitpid pid' 0) ws')
                   (tr (execState (run fuel) init))).
    { apply nolog_In; rewrite T; unfold started, released, reaped;
        rewrite !in_app_iff; cbn; tauto. }
    exists p, c. split; [rewrite T; reflexivity |].
    split; [rewrite T; project Hc; reflexivity |].
    split; [| split].
    + intros p0 opts ws o _ _. exists tp.
      split; [apply nolog_In; rewrite T; unfold started, released, reaped;
              rewrite !in_app_iff; cbn; tauto |].
      rewrite T; project Hc; reflexivity.
    + intros Hno. destruct (Hno _ _ _ Wp).
    + intros Hnone. congruence.
  - assert (stack = blk).
    { rewrite Ht in Hin. in_path Hin; congruence. }
    subst blk.
    assert (Wp : In (Sys (Waitpid pid' 0) ws')
                   (tr (execState (run fuel) init))).
    { apply nolog_In; rewrite Ht; unfold started, released, reaped;
        rewrite !in_app_iff; cbn; tauto. }
    exists p, c. split; [rewrite Ht; reflexivity |].
    split; [rewrite Ht; project Hc; reflexivity |].
    split; [| split].
    + intros p0 opts ws o _ Hsome. congruence.
    + intros Hno. destruct (Hno _ _ _ Wp).
    + intros _. rewrite Ht. project Hc; reflexivity.
Qed.

(** X13. [seccomp_release] is called at most once, after [waitpid], and
    only on the value read from [ctx] when that value is not [NULL]. *)
Theorem sandboxExec_seccomp_release (fuel : nat) (cv : Z) :
  In (Act (SeccompRelease cv)) (run_trace (run fuel)) ->
  cv <> NULL
  /\ releases (run_trace (run fuel)) = [cv]
  /\ exists pre pid ws tp stack post,
       nolog (run_trace (run fuel)) =
         pre ++ [Sys (Waitpid pid 0) ws; Sys (Load Var_tp) tp;
                 Act (Store (Tp_terminated tp) 1); Act (Free stack);
                 Sys (Load Var_ctx) cv; Act (SeccompRelease cv)] ++ post.
Proof.
  intros Hin. pose proof (paths env exe jail input output cg_locs res_lims
                            wl uid_ gid_ fuel) as P.
  unfold releases.
  rewrite (flat_map_nolog _ (run_trace (run fuel)) (fun _ => eq_refl)).
  fold (releases (nolog (run_trace (run fuel)))).
  unfold run_trace, run_value in *.
  apply In_nolog in Hin; [| reflexivity].
  run_cases P; try (rewrite Ht in Hin; in_path Hin; fail).
  - reaped_trace Hcl Ht T V. rewrite T in Hin. rewrite T. clear T Ht Hcl P.
    unfold reaped in Hin. unfold reaped.
    destruct (Z.eqb_spec cx NULL) as [E | E].
    + exfalso. destruct (reads_exceeded ws'); in_path Hin.
    + assert (cx = cv).
      { destruct (reads_exceeded ws'); in_path Hin; congruence. }
      subst cv. split; [exact E |]. split.
      * project Hc; reflexivity.
      * exists (started exe jail input output wl uid_ gid_ p c stack pid'
                ++ released cg_locs res_lims p c pid' rr rl rw rp rc),
          pid', ws', tp, stack.
        eexists. rewrite <- !app_assoc. cbn [app]. reflexivity.
  - rewrite Ht in Hin. rewrite Ht. clear Ht P.
    unfold reaped in Hin. unfold reaped.
    destruct (Z.eqb_spec cx NULL) as [E | E].
    + exfalso. in_path Hin.
    + assert (cx = cv). { in_path Hin; congruence. }
      subst cv. split; [exact E |]. split.
      * project Hc; reflexivity.
      * exists (started exe jail input output wl uid_ gid_ p c stack pid'
                ++ released cg_locs res_lims p c pid' rr rl rw rp rc),
          pid', ws', tp, stack.
        eexists. rewrite <- !app_assoc. cbn [app]. reflexivity.
Qed.

(** The value of the [switch], read backwards. *)
Lemma switch_exceeded_inv (ws ex : Z) (w : world) (o : Outcome) :
  evalState (switch_exceeded ws ex) w = o ->
  match o with
  | SB_OK => ex = NO_EXCEED /\ WIFSIGNALED ws = false
  | SB_RUNTIME_ERR => ex = NO_EXCEED /\ WIFSIGNALED ws = true
  | SB_MEM_EXCEED => ex = MEM_LIM_EXCEED
  | SB_TIME_EXCEED => ex = TIME_LIM_EXCEED
  | SB_TASK_EXCEED => ex = TASK_LIM_EXCEED
  | SB_FAILURE => ex <> NO_EXCEED
  end.
Proof.
  unfold switch_exceeded, evalState.
  repeat (branch; try destruct (WIFSIGNALED ws) eqn:?); cbn;
    intros <-; auto.
Qed.

(** X14. The outcomes other than [SB_FAILURE] come from the classification
    only: when [sandboxExec] returns one of them the child was reaped and
    had exited or was signaled, and [exceeded] was read; [SB_OK] means a
    normal exit with a status other than [EXIT_CHILD_FAILURE] and no limit
    exceeded, [SB_RUNTIME_ERR] a death by signal and no limit exceeded, and
    each limit outcome that [exceeded] held the code of that limit. *)
Theorem sandboxExec_outcome_inv (fuel : nat) (o : Outcome) :
  run_value (run fuel) = Some o -> o <> SB_FAILURE ->
  exists pid ws ex,
    In (Sys (Waitpid pid 0) ws) (run_trace (run fuel))
    /\ In (Sys (Load Var_exceeded) ex) (run_trace (run fuel))
    /\ (WIFEXITED ws = true /\ WEXITSTATUS ws <> EXIT_CHILD_FAILURE
        \/ WIFEXITED ws = false /\ WIFSIGNALED ws = true)
    /\ match o with
       | SB_OK => ex = NO_EXCEED /\ WIFEXITED ws = true
       | SB_RUNTIME_ERR => ex = NO_EXCEED /\ WIFSIGNALED ws = true
       | SB_MEM_EXCEED => ex = MEM_LIM_EXCEED
       | SB_TIME_EXCEED => ex = TIME_LIM_EXCEED
       | SB_TASK_EXCEED => ex = TASK_LIM_EXCEED
       | SB_FAILURE => False
       end.
Proof.
  intros Hval Hno. pose proof (paths env exe jail input output cg_locs
                                 res_lims wl uid_ gid_ fuel) as P.
  unfold run_trace, run_value in *. rewrite Hval in P.
  run_cases P; try congruence.
  reaped_trace Hcl Ht T V. clear Hcl P.
  destruct (reads_exceeded ws') eqn:Hrd; [| congruence].
  exists pid', ws', (env (next w1)).
  split; [apply nolog_In; rewrite T; unfold started, released, reaped;
          rewrite !in_app_iff; cbn; tauto |].
  split; [apply nolog_In; rewrite T; rewrite !in_app_iff; cbn; tauto |].
  assert (Hst : WIFEXITED ws' = true /\ WEXITSTATUS ws' <> EXIT_CHILD_FAILURE
                \/ WIFEXITED ws' = false /\ WIFSIGNALED ws' = true).
  { unfold reads_exceeded in Hrd. destruct (WIFEXITED ws').
    - left. split; [reflexivity |]. apply Z.eqb_neq.
      now destruct (WEXITSTATUS ws' =? EXIT_CHILD_FAILURE).
    - right. split; [reflexivity | exact Hrd]. }
  split; [exact Hst |].
  symmetry in V. apply switch_exceeded_inv in V.
  destruct o; try exact V; try congruence.
  destruct V as [V1 V2]. split; [exact V1 |].
  destruct Hst as [[He _] | [_ Hs']]; [exact He | congruence].
Qed.

(** An error of the classification is logged. *)
Lemma classify_failure_logged (ws : Z) (w w2 : world) (o : Outcome) :
  runState (classify env ws) w = (o, w2) -> o = SB_FAILURE ->
  existsb is_err (tr w2) = true.
Proof.
  unfold classify, switch_exceeded.
  destruct (WIFEXITED ws); [| destruct (WIFSIGNALED ws) eqn:?]; cbn;
    repeat (branch; try destruct (WIFSIGNALED ws)); cbn;
    intros H; injection H as <- <-; intros Ho; try discriminate Ho;
    cbn [tr]; rewrite existsb_app; cbn; apply orb_true_r.
Qed.

(** X15. [SB_FAILURE] is never returned in silence: every run that returns
    it has called [printErr]. *)
Theorem sandboxExec_failure_logged (fuel : nat) :
  run_value (run fuel) = Some SB_FAILURE ->
  existsb is_err (run_trace (run fuel)) = true.
Proof.
  unfold run_trace, run_value, sandboxExec, evalState, execState.
  cbn -[classify wait_done].
  destruct (Z.eqb_spec (env 2%nat) NULL) as [E2 | E2];
    cbn -[classify wait_done]; [reflexivity |].
  destruct (Z.eqb_spec (env 3%nat) (-1)) as [E3 | E3];
    cbn -[classify wait_done]; [repeat branch; reflexivity |].
  destruct (Z.eqb_spec (env 4%nat) (-1)) as [E4 | E4];
    cbn -[classify wait_done]; [repeat branch; reflexivity |].
  destruct (Z.eqb_spec (env 5%nat) (-1)) as [E5 | E5];
    cbn -[classify wait_done]; [repeat branch; reflexivity |].
  destruct (Z.eqb_spec (env 6%nat) (-1)) as [E6 | E6];
    cbn -[classify wait_done]; [repeat branch; reflexivity |].
  repeat branch.
  all: try match goal with
    | |- context [runState (wait_done env ?f ?tp) ?W] =>
        destruct (runState (wait_done env f tp) W) as [[|] w'];
        cbn -[classify]; [| discriminate]
    end.
  all: match goal with
    | |- context [runState (classify env ?ws) ?W] =>
        let Hcl := fresh "Hcl" in
        destruct (runState (classify env ws) W) as [o w2] eqn:Hcl; cbn;
        intros Ho; injection Ho as ->;
        exact (classify_failure_logged _ _ _ _ Hcl eq_refl)
    end.
Qed.

(** The payload of every [clone], and the descriptors the parent reads
    and writes. *)
Lemma sandboxExec_channel (fuel : nat) :
  exists p c,
    firstn 2 (nolog (run_trace (run fuel)))
    = [Sys (Eventfd 0 0) p; Sys (Eventfd 0 0) c]
    /\ (forall st fl cp pid,
          In (Sys (Clone st fl cp) pid) (run_trace (run fuel)) ->
          cp = payload exe jail input output wl uid_ gid_ p c
          /\ (pid <> -1 ->
              exists rr, In (Sys (Read p) rr) (run_trace (run fuel))))
    /\ (forall fd rr, In (Sys (Read fd) rr) (run_trace (run fuel)) -> fd = p)
    /\ (forall fd u rw,
          In (Sys (Write fd u) rw) (run_trace (run fuel)) ->
          fd = c /\ u = 1).
Proof.
  pose proof (paths env exe jail input output cg_locs res_lims
                wl uid_ gid_ fuel) as P.
  unfold run_trace, run_value in *.
  assert (I : forall e, is_log e = false ->
                In e (tr (execState (run fuel) init)) ->
                In e (nolog (tr (execState (run fuel) init)))).
  { intros e He H. now apply In_nolog. }
  assert (J : forall e, In e (nolog (tr (execState (run fuel) init))) ->
                In e (tr (execState (run fuel) init))).
  { intros e H. now apply nolog_In. }
  run_cases P; try (reaped_trace Hcl Ht T V; clear Ht; rename T into Ht);
    exists p, c; rewrite Ht in *; clear Ht P;
    (split; [reflexivity |]); (split; [| split]).
  all: try (intros st fl cp pid H; apply I in H; [| reflexivity]).
  all: try (intros fd rr0 H; apply I in H; [| reflexivity]).
  all: try (intros fd u rw0 H; apply I in H; [| reflexivity]).
  all: try (destruct (reads_exceeded ws')).
  all: in_path H; try congruence.
  all: try (injection H as <- <- <- <-; split; [reflexivity |]; intros Hpid;
            try congruence;
            eexists; apply J; unfold started, released, reaped;
            rewrite ?in_app_iff; cbn; eauto 8).
  all: try (injection H as <- <- <-; split; reflexivity).
Qed.

(** X16. The two ends of the channel are wired crosswise: for the payload
    that the parent hands to [clone], the descriptor to which [childFunc]
    writes its ready-token is the first [eventfd], the only one the parent
    reads from, and the descriptor from which [childFunc] reads the go-token
    is the second [eventfd], the only one the parent writes to; both tokens
    are the value 1. *)
Theorem rendezvous_wiring (fuel : nat) (st fl pid : Z) (cp : ChildPayload)
    (env' : nat -> Z) :
  In (Sys (Clone st fl cp) pid) (run_trace (run fuel)) ->
  firstn 2 (nolog (run_trace (run fuel)))
  = [Sys (Eventfd 0 0) (notify_p cp); Sys (Eventfd 0 0) (notify_c cp)]
  /\ (forall fd u r,
        In (Sys (Write fd u) r) (run_trace (childFunc env' cp)) ->
        fd = notify_p cp /\ u = 1
        /\ forall fd' r',
             In (Sys (Read fd') r') (run_trace (run fuel)) -> fd' = fd)
  /\ (forall fd r,
        In (Sys (Read fd) r) (run_trace (childFunc env' cp)) ->
        fd = notify_c cp
        /\ forall fd' u r',
             In (Sys (Write fd' u) r') (run_trace (run fuel)) ->
             fd' = fd /\ u = 1)
  /\ (pid <> -1 ->
      exists r, In (Sys (Read (notify_p cp)) r) (run_trace (run fuel))).
Proof.
  intros Hin.
  destruct (sandboxExec_channel fuel) as (p & c & H2 & Hcl & Hrd & Hwr).
  destruct (Hcl _ _ _ _ Hin) as [-> Hread]. cbn [notify_p notify_c payload].
  split; [exact H2 |]. split; [| split].
  - intros fd u r H. apply childFunc_calls in H. cbn in H.
    destruct H as [-> ->]. repeat split.
    intros fd' r' H'. now apply Hrd in H'.
  - intros fd r H. apply childFunc_calls in H. cbn in H. subst fd.
    split; [reflexivity |]. intros fd' u r' H'. now apply Hwr in H'.
  - exact Hread.
Qed.

(** X17. Run on the payload that the parent hands to [clone], [childFunc]
    works on the caller's arguments: it opens [input_file], [output_file]
    and [whitelist], changes into [jail_path], takes the identity [gid] and
    [uid], installs the filter on the parent's [ctx] and executes
    [exect_path], with the same string as argv[0]; and it makes no call of
    another kind. *)
Theorem childFunc_on_parent_payload (fuel : nat) (st fl pid : Z)
    (cp : ChildPayload) (env' : nat -> Z) (c : call) (r : Z) :
  In (Sys (Clone st fl cp) pid) (run_trace (run fuel)) ->
  In (Sys c r) (run_trace (childFunc env' cp)) ->
  match c with
  | Open f fl =>
      (f = input /\ fl = O_RDONLY)
      \/ (f = output /\ fl = Z.lor (Z.lor O_WRONLY O_CREAT) O_TRUNC)
      \/ (f = wl /\ fl = Z.lor O_RDONLY O_CLOEXEC)
  | Chdir d => d = jail
  | Chroot d => d = "./"%string
  | Setgid g => g = gid_
  | Setuid u => u = uid_
  | InstallSysCallBlocker l _ => l = Var_ctx
  | Execl a b => a = exe /\ b = exe
  | Dup2 _ n => n = STDIN_FILENO \/ n = STDOUT_FILENO
  | Close _ | Write _ _ | Read _ => True
  | _ => False
  end.
Proof.
  intros Hin Hc0.
  destruct (sandboxExec_channel fuel) as (p & c0 & _ & Hcl & _).
  destruct (Hcl _ _ _ _ Hin) as [-> _].
  apply childFunc_calls in Hc0. destruct c; cbn in Hc0 |- *; auto.
Qed.

End More.

(** ** Concrete runs *)

#[export] Existing Instance demo_codes.
#[export] Existing Instance removing_terminator.

Ltac in_list := vm_compute; repeat (first [left; reflexivity | right]).

(** *** C1 *)


(** *** C2 *)

Lemma childFunc_jail_before_exec_witness :
  (exists pre wfd r1 r2 r3 r4 r5 post,
     run_trace (childFunc env_child_ok demo_cp) =
       pre ++
       [Sys (Chdir "/jail") r1; Sys (Chroot "./") r2;
        Sys (Setgid 1000) r3; Sys (Setuid 1000) r4;
        Sys (InstallSysCallBlocker Var_ctx wfd) r5;
        Sys (Execl "/prog" "/prog") 0] ++ post
     /\ r1 <> -1 /\ r2 <> -1 /\ r3 <> -1 /\ r4 <> -1 /\ r5 <> -1
     /\ "/prog" = "/prog"%string
     /\ existsb is_execl pre = false
     /\ forallb is_log post = true)
  /\ run_value (childFunc env_child_setgid demo_cp)
     = Returned EXIT_CHILD_FAILURE
  /\ existsb is_execl (run_trace (childFunc env_child_setgid demo_cp))
     = false.
Proof.
  split.
  - apply (proj1 (childFunc_jail_before_exec env_child_ok demo_cp)
             "/prog"%string "/prog"%string 0).
    in_list.
  - apply (proj2 (childFunc_jail_before_exec env_child_setgid demo_cp)
             (Setgid 1000)).
    + in_list.
    + vm_compute; reflexivity.
Defined.

(** *** C3 *)



(** *** C4 *)



(** *** C5 *)

(** C5. When [malloc] fails, [sandboxExec] returns [SB_FAILURE] at once: it
    closes nothing, and the two descriptors of the channel stay open. *)
Theorem no_stack_leaks_channel :
  nolog (run_trace (demo_run env_no_stack 1))
  = [Sys (Eventfd 0 0) 3; Sys (Eventfd 0 0) 4; Sys (Malloc 1048576) NULL]
  /\ run_value (demo_run env_no_stack 1) = Some SB_FAILURE
  /\ open_fds (run_trace (demo_run env_no_stack 1)) = [3; 4].
Proof. split; [| split]; vm_compute; reflexivity. Qed.

(** *** C6 *)

(** C6. When the first [eventfd] fails, [sandboxExec] goes on: it allocates
    the stack and clones the child; it is the read from descriptor -1 that
    makes it kill the child and return [SB_FAILURE]. *)
Theorem no_channel_still_clones :
  nolog (run_trace (demo_run env_no_channel 1))
  = [Sys (Eventfd 0 0) (-1); Sys (Eventfd 0 0) 4;
     Sys (Malloc 1048576) 8192;
     Sys (Clone 1056768 (Z.lor CLONE_NEWPID SIGCHLD)
            {| exect_path := "/prog"; jail_path := "/jail";
               input_file := "/in"; output_file := "/out";
               whitelist := "/wl"; ctx := Var_ctx;
               notify_c := 4; notify_p := -1;
               uid := 1000; gid := 1000 |}) 77;
     Sys (Read (-1)) (-1); Sys (Kill 77 SIGTERM) 0;
     Act (Free 8192); Sys (Close (-1)) (-1); Sys (Close 4) 0]
  /\ run_value (demo_run env_no_channel 1) = Some SB_FAILURE.
Proof. split; vm_compute; reflexivity. Qed.

(** *** C7 *)

Lemma sandboxExec_go_token_failure_witness :
  In (Sys (Write 4 1) (-1)) (run_trace (demo_run env_no_go 1))
  /\ run_value (demo_run env_no_go 1) = Some SB_FAILURE
  /\ signals (run_trace (demo_run env_no_go 1)) = [(77, SIGTERM)]
  /\ live_blocks (run_trace (demo_run env_no_go 1)) = []
  /\ open_fds (run_trace (demo_run env_no_go 1)) = [].
Proof.
  assert (Hin : In (Sys (Write 4 1) (-1)) (run_trace (demo_run env_no_go 1)))
    by in_list.
  destruct (sandboxExec_go_token_failure env_no_go "/prog" "/jail" "/in"
              "/out" 100 200 "/wl" 1000 1000 1 4 1 Hin)
    as (p & c & stack & pid & rr & rl & k & rd & rp & rc & _ & _ & _ & _
        & Ht & Hv & Hs & Hl & Ho & _).
  split; [exact Hin |]. split; [exact Hv |].
  split; [vm_compute; reflexivity |]. split; [exact Hl | exact Ho].
Defined.

(** *** C8 *)

Lemma sandboxExec_terminator_coordination_witness :
  In (Sys (Waitpid 77 0) 9) (run_trace (demo_run env_timeout 5))
  /\ exists before after,
       nolog (run_trace (demo_run env_timeout 5))
       = before ++ Sys (Waitpid 77 0) 9 :: after.
Proof.
  assert (Hin : In (Sys (Waitpid 77 0) 9)
                   (run_trace (demo_run env_timeout 5))) by in_list.
  split; [exact Hin |].
  destruct (sandboxExec_terminator_coordination env_timeout "/prog" "/jail"
              "/in" "/out" 100 200 "/wl" 1000 1000 5 77 0 9 Hin)
    as (p & c & stack & rr & rl & rw & rp & rc & tp & cx & once & coord
        & rest & _ & Ht & _).
  unfold demo_run. rewrite Ht. eexists _, _. reflexivity.
Defined.

(** *** C9 *)

Lemma sandboxExec_clone_witness :
  In (Sys (Clone 1056768 536870929 demo_cp) (-1))
     (run_trace (demo_run env_no_child 1))
  /\ 536870929 = Z.lor CLONE_NEWPID SIGCHLD
  /\ run_value (demo_run env_no_child 1) = Some SB_FAILURE
  /\ live_blocks (run_trace (demo_run env_no_child 1)) = []
  /\ open_fds (run_trace (demo_run env_no_child 1)) = [].
Proof.
  assert (Hin : In (Sys (Clone 1056768 536870929 demo_cp) (-1))
                   (run_trace (demo_run env_no_child 1))) by in_list.
  destruct (sandboxExec_clone env_no_child "/prog" "/jail" "/in" "/out"
              100 200 "/wl" 1000 1000 1 1056768 536870929 (-1) demo_cp Hin)
    as (Hf & Hc).
  destruct (Hc eq_refl) as (p & c & stack & rp & rc & _ & Hv & Hl & Ho).
  split; [exact Hin |]. split; [exact Hf |]. split; [exact Hv |].
  split; [exact Hl | exact Ho].
Defined.

(** *** C10 *)

Lemma sandboxExec_exit_status_one_witness :
  In (Sys (Waitpid 77 0) 256) (run_trace (demo_run (env_exit 1 NO_EXCEED) 1))
  /\ WIFEXITED 256 = true /\ WEXITSTATUS 256 = 1
  /\ run_value (childFunc env_child_ok demo_cp) = Execed
  /\ (run_value (demo_run (env_exit 1 NO_EXCEED) 1) = Some SB_FAILURE
      \/ (run_value (demo_run (env_exit 1 NO_EXCEED) 1) = None
          /\ exists t tp,
               nolog (run_trace (demo_run (env_exit 1 NO_EXCEED) 1))
               = t ++ repeat (Sys (Load (Tp_done tp)) 0) 1)).
Proof.
  assert (Hin : In (Sys (Waitpid 77 0) 256)
                   (run_trace (demo_run (env_exit 1 NO_EXCEED) 1)))
    by in_list.
  assert (He : WIFEXITED 256 = true) by (vm_compute; reflexivity).
  assert (Hs : WEXITSTATUS 256 = 1) by (vm_compute; reflexivity).
  split; [exact Hin |]. split; [exact He |]. split; [exact Hs |].
  split; [vm_compute; reflexivity |].
  exact (proj1 (proj2 (sandboxExec_exit_status_one (env_exit 1 NO_EXCEED)
                         "/prog" "/jail" "/in" "/out" 100 200 "/wl" 1000
                         1000 1 77 0 256 Hin He Hs))).
Defined.

(** *** Witnesses for the further properties *)

Lemma childFunc_waits_for_go_witness :
  exists pre rw rr post,
    run_trace (childFunc env_child_ok demo_cp) =
      pre ++ [Sys (Write 3 1) rw; Sys (Read 4) rr] ++ post
    /\ rw <> -1 /\ rr <> -1
    /\ In (Sys (Execl "/prog" "/prog") 0) post
    /\ existsb guarded pre = false.
Proof.
  apply (childFunc_waits_for_go env_child_ok demo_cp
           (Sys (Execl "/prog" "/prog") 0)).
  - in_list.
  - vm_compute; reflexivity.
Defined.

Lemma childFunc_redirects_before_ready_witness :
  exists i o r1 r2 r3 r4,
    firstn 7 (run_trace (childFunc env_child_ok demo_cp)) =
      [Sys (Open "/in" O_RDONLY) i;
       Sys (Open "/out" (Z.lor (Z.lor O_WRONLY O_CREAT) O_TRUNC)) o;
       Sys (Dup2 i STDIN_FILENO) r1; Sys (Dup2 o STDOUT_FILENO) r2;
       Sys (Close i) r3; Sys (Close o) r4; Sys (Write 3 1) 8]
    /\ i <> -1 /\ o <> -1 /\ r1 <> -1 /\ r2 <> -1 /\ r3 <> -1 /\ r4 <> -1
    /\ 3 = 3 /\ 1 = 1.
Proof.
  apply (childFunc_redirects_before_ready env_child_ok demo_cp 3 1 8).
  in_list.
Defined.

Lemma childFunc_whitelist_before_jail_witness :
  exists pre rc rp wfd post,
    run_trace (childFunc env_child_ok demo_cp) =
      pre ++ [Sys (Close 4) rc; Sys (Close 3) rp;
              Sys (Open "/wl" (Z.lor O_RDONLY O_CLOEXEC)) wfd;
              Sys (Chdir "/jail") 0] ++ post
    /\ rc <> -1 /\ rp <> -1 /\ wfd <> -1 /\ "/jail"%string = "/jail"%string
    /\ existsb guarded pre = false
    /\ (forall l fd r',
          In (Sys (InstallSysCallBlocker l fd) r') post ->
          l = Var_ctx /\ fd = wfd).
Proof.
  apply (childFunc_whitelist_before_jail env_child_ok demo_cp "/jail" 0).
  in_list.
Defined.

Lemma childFunc_fails_fast_witness :
  run_value (childFunc env_child_no_whitelist demo_cp)
  = Returned EXIT_CHILD_FAILURE
  /\ exists pre logs,
       run_trace (childFunc env_child_no_whitelist demo_cp)
       = pre ++ Sys (Open "/wl" 524288) (-1) :: logs
       /\ forallb is_log logs = true
       /\ existsb is_log pre = false
       /\ (forall c' r', In (Sys c' r') pre -> r' <> -1).
Proof.
  apply (childFunc_fails_fast env_child_no_whitelist demo_cp
           (Open "/wl" 524288)).
  in_list.
Defined.

Lemma childFunc_logging_witness :
  (exists pre c line msg,
     run_trace (childFunc env_child_no_whitelist demo_cp)
     = pre ++ [Sys c (-1); Log (PrintErr line msg 1)]
     /\ PrintErr 99 "open failed" 1 = PrintErr line msg 1
     /\ existsb is_log pre = false)
  /\ existsb is_log (run_trace (childFunc env_child_no_filter demo_cp))
     = false
  /\ existsb is_log (run_trace (childFunc env_child_ok demo_cp)) = false.
Proof.
  split; [| split].
  - apply (proj1 (childFunc_logging env_child_no_whitelist demo_cp)
             (PrintErr 99 "open failed" 1)).
    in_list.
  - apply (proj1 (proj2 (childFunc_logging env_child_no_filter demo_cp))
             Var_ctx 5).
    in_list.
  - apply (proj2 (proj2 (childFunc_logging env_child_ok demo_cp))).
    vm_compute; reflexivity.
Defined.

Lemma sandboxExec_ready_token_failure_witness :
  In (Sys (Read 3) (-1)) (run_trace (demo_run env_no_ready 1))
  /\ run_value (demo_run env_no_ready 1) = Some SB_FAILURE
  /\ live_blocks (run_trace (demo_run env_no_ready 1)) = []
  /\ open_fds (run_trace (demo_run env_no_ready 1)) = [].
Proof.
  assert (Hin : In (Sys (Read 3) (-1)) (run_trace (demo_run env_no_ready 1)))
    by in_list.
  destruct (sandboxExec_ready_token_failure env_no_ready "/prog" "/jail"
              "/in" "/out" 100 200 "/wl" 1000 1000 1 3 Hin)
    as (p & c & stack & pid & k & rp & rc & _ & _ & _ & _ & Hv & Hl & Ho).
  split; [exact Hin |]. split; [exact Hv |]. split; [exact Hl | exact Ho].
Defined.

Lemma sandboxExec_limits_failure_witness :
  In (Sys (SetResourceLimits 77 200 100) (-1))
     (run_trace (demo_run env_no_limits 1))
  /\ run_value (demo_run env_no_limits 1) = Some SB_FAILURE
  /\ live_blocks (run_trace (demo_run env_no_limits 1)) = []
  /\ open_fds (run_trace (demo_run env_no_limits 1)) = [].
Proof.
  assert (Hin : In (Sys (SetResourceLimits 77 200 100) (-1))
                   (run_trace (demo_run env_no_limits 1))) by in_list.
  destruct (sandboxExec_limits_failure env_no_limits "/prog" "/jail"
              "/in" "/out" 100 200 "/wl" 1000 1000 1 77 200 100 Hin)
    as (p & c & stack & rr & k & rp & rc & _ & _ & _ & _ & _ & _ & Hv & Hl
        & Ho).
  split; [exact Hin |]. split; [exact Hv |]. split; [exact Hl | exact Ho].
Defined.

Lemma sandboxExec_go_after_limits_witness :
  In (Sys (Write 4 1) 8) (run_trace (demo_run (env_exit 0 NO_EXCEED) 1))
  /\ exists p c stack pid rr rl rest,
       4 = c /\ 1 = 1 /\ pid <> -1 /\ rr <> -1 /\ rl <> -1
       /\ nolog (run_trace (demo_run (env_exit 0 NO_EXCEED) 1)) =
            [Sys (Eventfd 0 0) p; Sys (Eventfd 0 0) c;
             Sys (Malloc child_stack_size) stack;
             Sys (Clone (stack + child_stack_size)
                    (Z.lor CLONE_NEWPID SIGCHLD)
                    (payload "/prog" "/jail" "/in" "/out" "/wl" 1000 1000
                       p c)) pid;
             Sys (Read p) rr; Act (Store Var_exceeded NO_EXCEED);
             Sys (SetResourceLimits pid 200 100) rl;
             Sys (Write c 1) 8] ++ rest.
Proof.
  assert (Hin : In (Sys (Write 4 1) 8)
                   (run_trace (demo_run (env_exit 0 NO_EXCEED) 1)))
    by in_list.
  split; [exact Hin |].
  exact (sandboxExec_go_after_limits (env_exit 0 NO_EXCEED) "/prog" "/jail"
           "/in" "/out" 100 200 "/wl" 1000 1000 1 4 1 8 Hin).
Defined.

Lemma sandboxExec_terminator_after_reap_witness :
  In (Sys (Terminate 999) 0) (run_trace (demo_run (env_exit 0 NO_EXCEED) 1))
  /\ exists pre pid ws post,
       nolog (run_trace (demo_run (env_exit 0 NO_EXCEED) 1))
       = pre ++ Sys (Waitpid pid 0) ws :: post
       /\ In (Sys (Terminate 999) 0) post
       /\ existsb touches_terminator pre = false.
Proof.
  assert (Hin : In (Sys (Terminate 999) 0)
                   (run_trace (demo_run (env_exit 0 NO_EXCEED) 1)))
    by in_list.
  split; [exact Hin |].
  exact (sandboxExec_terminator_after_reap (env_exit 0 NO_EXCEED) "/prog"
           "/jail" "/in" "/out" 100 200 "/wl" 1000 1000 1
           (Sys (Terminate 999) 0) Hin eq_refl).
Defined.

Lemma sandboxExec_signals_witness :
  In (77, SIGTERM) (signals (run_trace (demo_run env_no_limits 1)))
  /\ signals (run_trace (demo_run env_no_limits 1)) = [(77, SIGTERM)]
  /\ run_value (demo_run env_no_limits 1) = Some SB_FAILURE.
Proof.
  assert (Hin : In (77, SIGTERM)
                   (signals (run_trace (demo_run env_no_limits 1))))
    by in_list.
  destruct (sandboxExec_signals env_no_limits "/prog" "/jail" "/in" "/out"
              100 200 "/wl" 1000 1000 1 77 SIGTERM Hin)
    as (Hs & _ & _ & _ & Hv & _).
  split; [exact Hin |]. split; [exact Hs | exact Hv].
Defined.

Lemma sandboxExec_releases_once_witness :
  In (Sys (Malloc 1048576) 8192) (run_trace (demo_run env_timeout 5))
  /\ 8192 <> NULL
  /\ In (Sys (Waitpid 77 0) 9) (run_trace (demo_run env_timeout 5))
  /\ run_value (demo_run env_timeout 5) = Some SB_TIME_EXCEED
  /\ exists tp,
       In (Sys (Load Var_tp) tp) (run_trace (demo_run env_timeout 5))
       /\ frees (run_trace (demo_run env_timeout 5)) = [8192; tp].
Proof.
  assert (Hin : In (Sys (Malloc 1048576) 8192)
                   (run_trace (demo_run env_timeout 5))) by in_list.
  assert (Hn : 8192 <> NULL) by discriminate.
  assert (Hw : In (Sys (Waitpid 77 0) 9)
                  (run_trace (demo_run env_timeout 5))) by in_list.
  assert (Hv : run_value (demo_run env_timeout 5) = Some SB_TIME_EXCEED)
    by (vm_compute; reflexivity).
  destruct (sandboxExec_releases_once env_timeout "/prog" "/jail" "/in"
              "/out" 100 200 "/wl" 1000 1000 5 1048576 8192 Hin Hn)
    as (p & c & _ & _ & Hret & _ & _).
  split; [exact Hin |]. split; [exact Hn |]. split; [exact Hw |].
  split; [exact Hv |].
  exact (Hret 77 0 9 SB_TIME_EXCEED Hw Hv).
Defined.

Lemma sandboxExec_seccomp_release_witness :
  In (Act (SeccompRelease 5)) (run_trace (demo_run env_timeout 5))
  /\ 5 <> NULL
  /\ releases (run_trace (demo_run env_timeout 5)) = [5].
Proof.
  assert (Hin : In (Act (SeccompRelease 5))
                   (run_trace (demo_run env_timeout 5))) by in_list.
  destruct (sandboxExec_seccomp_release env_timeout "/prog" "/jail" "/in"
              "/out" 100 200 "/wl" 1000 1000 5 5 Hin) as (Hn & Hr & _).
  split; [exact Hin |]. split; [exact Hn | exact Hr].
Defined.

Lemma sandboxExec_outcome_inv_witness :
  run_value (demo_run env_timeout 5) = Some SB_TIME_EXCEED
  /\ SB_TIME_EXCEED <> SB_FAILURE
  /\ exists pid ws ex,
       In (Sys (Waitpid pid 0) ws) (run_trace (demo_run env_timeout 5))
       /\ In (Sys (Load Var_exceeded) ex)
             (run_trace (demo_run env_timeout 5))
       /\ (WIFEXITED ws = true /\ WEXITSTATUS ws <> EXIT_CHILD_FAILURE
           \/ WIFEXITED ws = false /\ WIFSIGNALED ws = true)
       /\ ex = TIME_LIM_EXCEED.
Proof.
  assert (Hv : run_value (demo_run env_timeout 5) = Some SB_TIME_EXCEED)
    by (vm_compute; reflexivity).
  assert (Hn : SB_TIME_EXCEED <> SB_FAILURE) by discriminate.
  split; [exact Hv |]. split; [exact Hn |].
  exact (sandboxExec_outcome_inv env_timeout "/prog" "/jail" "/in" "/out"
           100 200 "/wl" 1000 1000 5 SB_TIME_EXCEED Hv Hn).
Defined.

Lemma sandboxExec_failure_logged_witness :
  run_value (demo_run (env_exit 1 NO_EXCEED) 1) = Some SB_FAILURE
  /\ existsb is_err (run_trace (demo_run (env_exit 1 NO_EXCEED) 1)) = true.
Proof.
  assert (Hv : run_value (demo_run (env_exit 1 NO_EXCEED) 1)
               = Some SB_FAILURE) by (vm_compute; reflexivity).
  split; [exact Hv |].
  exact (sandboxExec_failure_logged (env_exit 1 NO_EXCEED) "/prog" "/jail"
           "/in" "/out" 100 200 "/wl" 1000 1000 1 Hv).
Defined.

Lemma rendezvous_wiring_witness :
  In (Sys (Clone 1056768 536870929 demo_cp) 77)
     (run_trace (demo_run (env_exit 0 NO_EXCEED) 1))
  /\ firstn 2 (nolog (run_trace (demo_run (env_exit 0 NO_EXCEED) 1)))
     = [Sys (Eventfd 0 0) 3; Sys (Eventfd 0 0) 4]
  /\ exists r, In (Sys (Read 3) r)
                  (run_trace (demo_run (env_exit 0 NO_EXCEED) 1)).
Proof.
  assert (Hin : In (Sys (Clone 1056768 536870929 demo_cp) 77)
                   (run_trace (demo_run (env_exit 0 NO_EXCEED) 1)))
    by in_list.
  destruct (rendezvous_wiring (env_exit 0 NO_EXCEED) "/prog" "/jail" "/in"
              "/out" 100 200 "/wl" 1000 1000 1 1056768 536870929 77 demo_cp
              env_child_ok Hin) as (H2 & _ & _ & Hr).
  split; [exact Hin |]. split; [exact H2 |]. apply Hr. discriminate.
Defined.

Lemma childFunc_on_parent_payload_witness :
  In (Sys (Clone 1056768 536870929 demo_cp) 77)
     (run_trace (demo_run (env_exit 0 NO_EXCEED) 1))
  /\ In (Sys (Execl "/prog" "/prog") 0)
        (run_trace (childFunc env_child_ok demo_cp))
  /\ ("/prog"%string = "/prog"%string /\ "/prog"%string = "/prog"%string).
Proof.
  assert (Hin : In (Sys (Clone 1056768 536870929 demo_cp) 77)
                   (run_trace (demo_run (env_exit 0 NO_EXCEED) 1)))
    by in_list.
  assert (Hc : In (Sys (Execl "/prog" "/prog") 0)
                  (run_trace (childFunc env_child_ok demo_cp))) by in_list.
  split; [exact Hin |]. split; [exact Hc |].
  exact (childFunc_on_parent_payload (env_exit 0 NO_EXCEED) "/prog" "/jail"
           "/in" "/out" 100 200 "/wl" 1000 1000 1 1056768 536870929 77
           demo_cp env_child_ok (Execl "/prog" "/prog") 0 Hin Hc).
Defined.
